(** * Signify browser extension: session manager and signin list

    A shallow embedding of
      - [connect] and [isConnected] as written in tests/unit/connect.test.ts,
        together with the jest mocks they run against;
      - [deleteSignin] and [updateAutoSignin] of components/signinList.tsx;
      - [handleClick] of the SigninItem component.

    Asynchronous functions are state-passing computations over a [World];
    a rejected promise and a thrown exception are the same [Rejected]
    outcome, and [try_catch] is the source's try/catch block. *)

From Stdlib Require Import String List Bool Arith Lia.
Import ListNotations.
Open Scope string_scope.
Open Scope list_scope.

(** ** JavaScript values used by the session code *)

(** An error value: [new Error(msg)], or the [TypeError] raised by a member
    access on [null]. *)
Inductive Err : Type :=
| Error (msg : string)
| TypeError (msg : string).

(** The settled result of a call: a value, or a rejection / throw. *)
Inductive Outcome (A : Type) : Type :=
| Resolved (a : A)
| Rejected (e : Err).
Arguments Resolved {A} a.
Arguments Rejected {A} e.

Definition is_resolved {A} (o : Outcome A) : bool :=
  match o with Resolved _ => true | Rejected _ => false end.

(** JavaScript truthiness of a value that is a string, [null] or
    [undefined]: only a non-empty string is truthy. *)
Definition truthy (v : option string) : bool :=
  match v with
  | Some s => negb (s =? "")
  | None => false
  end.

(** The agent state object returned by [client.state()]; every level may be
    missing, which is what the optional chaining in the source guards. *)
Record ControllerState := { i : option string }.
Record Controller := { state : option ControllerState }.
Record AgentState := { controller : option Controller }.

(** [state?.controller?.state?.i] *)
Definition controller_i (st : option AgentState) : option string :=
  match st with
  | None => None
  | Some a =>
      match controller a with
      | None => None
      | Some c =>
          match state c with
          | None => None
          | Some s => i s
          end
      end
  end.

(** Truthiness of an object reference that may be [null]. *)
Definition live {A} (c : option A) : bool :=
  match c with Some _ => true | None => false end.

(** ** jest mocks *)

Module Jest.

(** A [jest.fn()] whose behaviour is scripted: [once] is the queue filled
    by [mockResolvedValueOnce] / [mockRejectedValueOnce], [default] the
    behaviour set by [mockResolvedValue] / [mockImplementation]. *)
Record Mock (A : Type) := { once : list (Outcome A); default : Outcome A }.
Arguments once {A} m.
Arguments default {A} m.

Definition call {A} (m : Mock A) : Outcome A * Mock A :=
  match once m with
  | o :: q => (o, {| once := q; default := default m |})
  | [] => (default m, m)
  end.

Definition mockResolvedValue {A} (a : A) : Mock A :=
  {| once := []; default := Resolved a |}.

Definition mockRejectedValueOnce {A} (e : Err) (m : Mock A) : Mock A :=
  {| once := once m ++ [Rejected e]; default := default m |}.

Definition mockResolvedValueOnce {A} (a : A) (m : Mock A) : Mock A :=
  {| once := once m ++ [Resolved a]; default := default m |}.

(** The mock never rejects, whatever call comes next. *)
Definition resolves {A} (m : Mock A) : bool :=
  forallb is_resolved (once m) && is_resolved (default m).

End Jest.
Import Jest.

(** ** The world the session code runs in *)

(** What [new SignifyClient(agentUrl, passcode, Tier.low)] was built from. *)
Record Handle := { h_url : string; h_passcode : string; h_tier : string }.

Definition Tier_low : string := "low".

(** Calls recorded by the mocks ([toHaveBeenCalledWith]). *)
Inductive Call : Type :=
| CallReady
| CallSignifyClient (agentUrl passcode tier : string)
| CallClientConnect
| CallClientState
| CallSetControllerId (id : option string)
| CallGetPasscode
| CallGetAgentUrl
| CallAlarmsCreate (name : string) (delayInMinutes : nat)
| CallAlarmsClear (name : string).

(** The module-level variable [_client], the scripted identity client and
    persistence write, the stored credentials, the browser's alarm table and
    the record of calls (most recent first).

    [ready], the constructor, [client.connect], [client.state] and
    [setControllerId] may reject, call by call.  The stored passcode, the
    configured agent URL and the alarm table are state: reading them and
    registering an alarm return normally, as the browser mock of the test
    does. *)
Record World := {
  _client : option Handle;
  ready : Mock unit;
  SignifyClient : Mock unit;
  client_connect : Mock bool;
  client_state : Mock (option AgentState);
  setControllerId : Mock unit;
  passcode : option string;
  controllerId : option string;
  agentUrl : option string;
  alarms : list (string * nat);
  calls : list Call
}.

Definition with_client (c : option Handle) (w : World) : World :=
  {| _client := c; ready := ready w; SignifyClient := SignifyClient w;
     client_connect := client_connect w; client_state := client_state w;
     setControllerId := setControllerId w; passcode := passcode w;
     controllerId := controllerId w; agentUrl := agentUrl w;
     alarms := alarms w; calls := calls w |}.

Definition with_ready (m : Mock unit) (w : World) : World :=
  {| _client := _client w; ready := m; SignifyClient := SignifyClient w;
     client_connect := client_connect w; client_state := client_state w;
     setControllerId := setControllerId w; passcode := passcode w;
     controllerId := controllerId w; agentUrl := agentUrl w;
     alarms := alarms w; calls := calls w |}.

Definition with_SignifyClient (m : Mock unit) (w : World) : World :=
  {| _client := _client w; ready := ready w; SignifyClient := m;
     client_connect := client_connect w; client_state := client_state w;
     setControllerId := setControllerId w; passcode := passcode w;
     controllerId := controllerId w; agentUrl := agentUrl w;
     alarms := alarms w; calls := calls w |}.

Definition with_client_connect (m : Mock bool) (w : World) : World :=
  {| _client := _client w; ready := ready w; SignifyClient := SignifyClient w;
     client_connect := m; client_state := client_state w;
     setControllerId := setControllerId w; passcode := passcode w;
     controllerId := controllerId w; agentUrl := agentUrl w;
     alarms := alarms w; calls := calls w |}.

Definition with_client_state (m : Mock (option AgentState)) (w : World) : World :=
  {| _client := _client w; ready := ready w; SignifyClient := SignifyClient w;
     client_connect := client_connect w; client_state := m;
     setControllerId := setControllerId w; passcode := passcode w;
     controllerId := controllerId w; agentUrl := agentUrl w;
     alarms := alarms w; calls := calls w |}.

Definition with_setControllerId (m : Mock unit) (w : World) : World :=
  {| _client := _client w; ready := ready w; SignifyClient := SignifyClient w;
     client_connect := client_connect w; client_state := client_state w;
     setControllerId := m; passcode := passcode w;
     controllerId := controllerId w; agentUrl := agentUrl w;
     alarms := alarms w; calls := calls w |}.

Definition with_controllerId (v : option string) (w : World) : World :=
  {| _client := _client w; ready := ready w; SignifyClient := SignifyClient w;
     client_connect := client_connect w; client_state := client_state w;
     setControllerId := setControllerId w; passcode := passcode w;
     controllerId := v; agentUrl := agentUrl w;
     alarms := alarms w; calls := calls w |}.

Definition with_alarms (a : list (string * nat)) (w : World) : World :=
  {| _client := _client w; ready := ready w; SignifyClient := SignifyClient w;
     client_connect := client_connect w; client_state := client_state w;
     setControllerId := setControllerId w; passcode := passcode w;
     controllerId := controllerId w; agentUrl := agentUrl w;
     alarms := a; calls := calls w |}.

Definition record (c : Call) (w : World) : World :=
  {| _client := _client w; ready := ready w; SignifyClient := SignifyClient w;
     client_connect := client_connect w; client_state := client_state w;
     setControllerId := setControllerId w; passcode := passcode w;
     controllerId := controllerId w; agentUrl := agentUrl w;
     alarms := alarms w; calls := c :: calls w |}.

(** ** Asynchronous computations *)

Definition Async (S A : Type) : Type := S -> S * Outcome A.

Definition ret {S A} (a : A) : Async S A := fun w => (w, Resolved a).

Definition throw {S A} (e : Err) : Async S A := fun w => (w, Rejected e).

Definition bind {S A B} (m : Async S A) (k : A -> Async S B) : Async S B :=
  fun w =>
    match m w with
    | (w', Resolved a) => k a w'
    | (w', Rejected e) => (w', Rejected e)
    end.

Definition try_catch {S A} (body : Async S A) (handler : Err -> Async S A) : Async S A :=
  fun w =>
    match body w with
    | (w', Resolved a) => (w', Resolved a)
    | (w', Rejected e) => handler e w'
    end.

Notation "x <- c ;; k" := (bind c (fun x => k))
  (at level 61, c at next level, right associativity).
Notation "c ;;; k" := (bind c (fun _ => k))
  (at level 61, right associativity).

(** ** External calls *)

Module Session.

Definition M : Type -> Type := Async World.

(** [signify-ts].ready() *)
Definition call_ready : M unit :=
  fun w =>
    let (o, m) := call (ready w) in
    (record CallReady (with_ready m w), o).

(** [new SignifyClient(agentUrl, passcode, tier)]: the constructor hands
    back the client, or throws. *)
Definition new_SignifyClient (url pass tier : string) : M Handle :=
  fun w =>
    let (o, m) := call (SignifyClient w) in
    let w' := record (CallSignifyClient url pass tier) (with_SignifyClient m w) in
    match o with
    | Resolved _ => (w', Resolved {| h_url := url; h_passcode := pass; h_tier := tier |})
    | Rejected e => (w', Rejected e)
    end.

Definition set_client (c : option Handle) : M unit :=
  fun w => (with_client c w, Resolved tt).

Definition get_client : M (option Handle) :=
  fun w => (w, Resolved (_client w)).

(** [_client.connect()]: a member call on [null] throws. *)
Definition call_client_connect : M bool :=
  fun w =>
    match _client w with
    | None => (w, Rejected (TypeError "Cannot read properties of null"))
    | Some _ =>
        let (o, m) := call (client_connect w) in
        (record CallClientConnect (with_client_connect m w), o)
    end.

(** [_client.state()] *)
Definition call_client_state : M (option AgentState) :=
  fun w =>
    match _client w with
    | None => (w, Rejected (TypeError "Cannot read properties of null"))
    | Some _ =>
        let (o, m) := call (client_state w) in
        (record CallClientState (with_client_state m w), o)
    end.

(** [_client?.state()]: [undefined] without a call when [_client] is
    [null]. *)
Definition call_client_state_opt : M (option AgentState) :=
  fun w =>
    match _client w with
    | None => (w, Resolved None)
    | Some _ => call_client_state w
    end.

(** [userService.setControllerId(id)]: the identifier is stored when the
    write resolves, and the store is left as it was when it rejects. *)
Definition call_setControllerId (id : option string) : M unit :=
  fun w =>
    let (o, m) := call (setControllerId w) in
    let w' := record (CallSetControllerId id) (with_setControllerId m w) in
    match o with
    | Resolved _ => (with_controllerId id w', Resolved tt)
    | Rejected e => (w', Rejected e)
    end.

(** [userService.getPasscode()] *)
Definition getPasscode : M (option string) :=
  fun w => (record CallGetPasscode w, Resolved (passcode w)).

(** [configService.getAgentUrl()] *)
Definition getAgentUrl : M (option string) :=
  fun w => (record CallGetAgentUrl w, Resolved (agentUrl w)).

(** The alarm table of the browser: [create] cancels an alarm of the same
    name and registers the new one, [clear] cancels it. *)
Definition cancel (name : string) (tbl : list (string * nat)) : list (string * nat) :=
  filter (fun a => negb (fst a =? name)) tbl.

Definition alarms_create (name : string) (delayInMinutes : nat) : M unit :=
  fun w =>
    (record (CallAlarmsCreate name delayInMinutes)
       (with_alarms ((name, delayInMinutes) :: cancel name (alarms w)) w),
     Resolved tt).

Definition alarms_clear (name : string) : M bool :=
  fun w =>
    (record (CallAlarmsClear name) (with_alarms (cancel name (alarms w)) w),
     Resolved true).

(** ** [connect] (connect.test.ts, lines 104-118)

    The result is [None] for [undefined] and [Some error] for
    [{ error }]. *)
Definition connect (agentUrl passcode : string) : M (option Err) :=
  try_catch
    (call_ready ;;;
     h <- new_SignifyClient agentUrl passcode Tier_low ;;
     set_client (Some h) ;;;
     call_client_connect ;;;
     state <- call_client_state ;;
     call_setControllerId (controller_i state) ;;;
     alarms_create "passcode-timeout" 5 ;;;
     ret None)
    (fun error =>
       set_client None ;;;
       ret (Some error)).

(** ** [isConnected] (connect.test.ts, lines 120-137) *)
Definition isConnected : M bool :=
  passcode <- getPasscode ;;
  url <- getAgentUrl ;;
  c <- get_client ;;
  (if truthy url && truthy passcode && negb (live c)
   then
     connect (match url with Some u => u | None => "" end)
             (match passcode with Some p => p | None => "" end) ;;;
     alarms_clear "passcode-timeout" ;;;
     alarms_create "passcode-timeout" 5
   else ret tt) ;;;
  try_catch
    (state <- call_client_state_opt ;;
     c <- get_client ;;
     ret (live c && truthy (controller_i state)))
    (fun error => ret false).

(** ** Observations *)

Definition is_new (c : Call) : bool :=
  match c with CallSignifyClient _ _ _ => true | _ => false end.

(** Number of clients the constructor was asked for. *)
Definition constructed (w : World) : nat :=
  length (filter is_new (calls w)).


(** Calls made since [w0], oldest first. *)
Definition since (w0 w : World) : list Call :=
  rev (firstn (length (calls w) - length (calls w0)) (calls w)).

End Session.

(** ** Interleaved [connect] calls

    On the single event loop a call of [connect] runs from one [await] to
    the next without interruption, and other tasks may run while it is
    suspended.  A task is a [connect] call with the point it is suspended
    at; the promise it awaits is already settled in the model, and the
    outcome is delivered when the task is resumed. *)

Module Tasks.
Import Session.

Inductive Pc : Type :=
| Start
| AwaitReady (o : Outcome unit)
| AwaitConnect (o : Outcome bool)
| AwaitState (o : Outcome (option AgentState))
| AwaitPersist (o : Outcome unit)
| Done (r : option Err).

(** The catch block of [connect]. *)
Definition caught (e : Err) (w : World) : World * Pc :=
  (with_client None w, Done (Some e)).

(** Runs the task up to its next [await], or to its end.  A member call
    on a [_client] that another task has reset throws at once. *)
Definition step (agentUrl passcode : string) (pc : Pc) (w : World) : World * Pc :=
  match pc with
  | Start =>
      let (w1, o) := call_ready w in (w1, AwaitReady o)
  | AwaitReady (Rejected e) => caught e w
  | AwaitReady (Resolved _) =>
      match new_SignifyClient agentUrl passcode Tier_low w with
      | (w1, Rejected e) => caught e w1
      | (w1, Resolved h) =>
          let (w2, o) := call_client_connect (with_client (Some h) w1) in
          (w2, AwaitConnect o)
      end
  | AwaitConnect (Rejected e) => caught e w
  | AwaitConnect (Resolved _) =>
      match _client w with
      | None => caught (TypeError "Cannot read properties of null") w
      | Some _ => let (w1, o) := call_client_state w in (w1, AwaitState o)
      end
  | AwaitState (Rejected e) => caught e w
  | AwaitState (Resolved st) =>
      let (w1, o) := call_setControllerId (controller_i st) w in
      (w1, AwaitPersist o)
  | AwaitPersist (Rejected e) => caught e w
  | AwaitPersist (Resolved _) =>
      let (w1, _) := alarms_create "passcode-timeout" 5 w in (w1, Done None)
  | Done r => (w, Done r)
  end.

(** A call run on its own, from its first statement to its return. *)
Fixpoint steps (n : nat) (agentUrl passcode : string) (pc : Pc) (w : World)
  : World * Pc :=
  match n with
  | 0 => (w, pc)
  | S n' =>
      let (w', pc') := step agentUrl passcode pc w in
      steps n' agentUrl passcode pc' w'
  end.

Record Task := { t_url : string; t_passcode : string; t_pc : Pc }.

Definition spawn (n : nat) (agentUrl passcode : string) : list Task :=
  repeat {| t_url := agentUrl; t_passcode := passcode; t_pc := Start |} n.

(** Resumes the [k]-th task; nothing happens when there is none. *)
Fixpoint resume (k : nat) (ts : list Task) (w : World) {struct ts}
  : list Task * World :=
  match ts with
  | [] => ([], w)
  | t :: rest =>
      match k with
      | 0 =>
          let (w', pc') := step (t_url t) (t_passcode t) (t_pc t) w in
          ({| t_url := t_url t; t_passcode := t_passcode t; t_pc := pc' |} :: rest, w')
      | S k' =>
          let (rest', w') := resume k' rest w in (t :: rest', w')
      end
  end.

(** The event loop following a schedule: which task is resumed next. *)
Fixpoint run (sched : list nat) (ts : list Task) (w : World) : list Task * World :=
  match sched with
  | [] => (ts, w)
  | k :: sched' =>
      let (ts', w') := resume k ts w in run sched' ts' w'
  end.

Definition finished (t : Task) : bool :=
  match t_pc t with Done _ => true | _ => false end.

(** The task is past a constructor call that returned: it awaits a later
    step, or it returned without an error. *)
Definition built (pc : Pc) : bool :=
  match pc with
  | AwaitConnect _ | AwaitState _ | AwaitPersist _ | Done None => true
  | _ => false
  end.

(** Valid credentials against a reachable agent: no call of the identity
    client or of the persistence write rejects. *)
Definition all_resolve (w : World) : bool :=
  resolves (ready w) && resolves (SignifyClient w) &&
  resolves (client_connect w) && resolves (client_state w) &&
  resolves (setControllerId w).

End Tasks.

(** ** Signin records *)

Record Identifier := { name : string; prefix : string }.

Record ISignin := {
  id : string;
  domain : string;
  identifier : option Identifier;
  autoSignin : bool;
  updatedAt : nat
}.

(** ** The signin list of the popup (components/signinList.tsx) *)

Module SigninList.

(** Request types of [UI_EVENTS] used by the component. *)
Inductive UiEvent : Type :=
| fetch_resource_signins
| delete_resource_signins
| update_resource_auto_signin.

(** The [data] of a request: [{ id }] or [{ signin }]. *)
Inductive Payload : Type :=
| NoPayload
| IDeleteSignin (id : string)
| IUpdateSignin (signin : ISignin).

(** The [data] of a reply; [isDeleted] is [false] also when the field is
    missing, [signins] may be missing. *)
Record Data := { isDeleted : bool; signins : option (list ISignin) }.
Record Reply := { data : option Data }.

(** The content script's answer to [get-tab-state]. *)
Record TabData := { tabState : option string }.
Record TabReply := { tab_data : option TabData }.

Inductive Event : Type :=
| Sent (type : UiEvent) (p : Payload)
| Replied (type : UiEvent)
| SetSignins (v : option (list ISignin))
| TabsQuery
| TabMessage (tab : nat) (subtype : string) (eventType : option string).

(** The popup and what it talks to: the background's signin collection,
    the component's [signins] state, the tabs that [chrome.tabs.query]
    reports, how the content script of the tab answers, the events so far
    (most recent first) and the rejections nobody awaited. *)
Record Popup := {
  registry : list ISignin;
  ui_signins : option (list ISignin);
  tabs : list (option nat);
  tab_state_reply : Outcome (option TabReply);
  tab_reload_reply : Outcome unit;
  trace : list Event;
  unhandled : list Err
}.

Definition log (e : Event) (w : Popup) : Popup :=
  {| registry := registry w; ui_signins := ui_signins w; tabs := tabs w;
     tab_state_reply := tab_state_reply w; tab_reload_reply := tab_reload_reply w;
     trace := e :: trace w; unhandled := unhandled w |}.

Definition with_registry (r : list ISignin) (w : Popup) : Popup :=
  {| registry := r; ui_signins := ui_signins w; tabs := tabs w;
     tab_state_reply := tab_state_reply w; tab_reload_reply := tab_reload_reply w;
     trace := trace w; unhandled := unhandled w |}.

Definition with_ui_signins (v : option (list ISignin)) (w : Popup) : Popup :=
  {| registry := registry w; ui_signins := v; tabs := tabs w;
     tab_state_reply := tab_state_reply w; tab_reload_reply := tab_reload_reply w;
     trace := trace w; unhandled := unhandled w |}.

Definition with_unhandled (e : Err) (w : Popup) : Popup :=
  {| registry := registry w; ui_signins := ui_signins w; tabs := tabs w;
     tab_state_reply := tab_state_reply w; tab_reload_reply := tab_reload_reply w;
     trace := trace w; unhandled := e :: unhandled w |}.

(** The tab side of a popup world replaced. *)
Definition with_tab (ts : list (option nat)) (st : Outcome (option TabReply))
    (rl : Outcome unit) (w : Popup) : Popup :=
  {| registry := registry w; ui_signins := ui_signins w; tabs := ts;
     tab_state_reply := st; tab_reload_reply := rl;
     trace := trace w; unhandled := unhandled w |}.

(** Modelled from the spec: the background's handler of "delete signin",
    whose code is not part of the sources.  It removes the record with the
    matching [id]; [isDeleted] tells whether a record was removed, and the
    remaining collection is returned. *)
Definition delete (id0 : string) (coll : list ISignin) : bool * list ISignin :=
  (existsb (fun s => id s =? id0) coll,
   filter (fun s => negb (id s =? id0)) coll).

(** Modelled from the spec: the reply of the "delete signin" request,
    [{ data: { isDeleted, signins } }], after the collection is stored. *)
Definition delete_handler (id0 : string) (coll : list ISignin)
  : list ISignin * Outcome (option Reply) :=
  let (ok, remaining) := delete id0 coll in
  (remaining,
   Resolved (Some {| data := Some {| isDeleted := ok; signins := Some remaining |} |})).

Section Component.

(** The background's message handlers: from a request and the stored
    collection to the new collection and the settled reply
    ([None] for [undefined]). *)
Variable background :
  UiEvent -> Payload -> list ISignin -> list ISignin * Outcome (option Reply).

(** [sendMessage] of runtime-utils: the request reaches the background,
    the handler runs to its end, and the reply comes back. *)
Definition sendMessage (type : UiEvent) (p : Payload) : Async Popup (option Reply) :=
  fun w =>
    let (r, o) := background type p (registry w) in
    (log (Replied type) (with_registry r (log (Sent type p) w)), o).

Definition setSignins (v : option (list ISignin)) : Async Popup unit :=
  fun w => (log (SetSignins v) (with_ui_signins v w), Resolved tt).

(** [chrome.tabs.sendMessage(tabId, message)]; a missing tab id is an
    invocation error. *)
Definition tabs_sendMessage {A} (tab : option nat) (subtype : string)
    (eventType : option string) (reply : Popup -> Outcome A) : Async Popup A :=
  fun w =>
    match tab with
    | None => (w, Rejected (TypeError "Error in invocation of tabs.sendMessage"))
    | Some t => (log (TabMessage t subtype eventType) w, reply w)
    end.

(** A promise that is not awaited: its rejection is not the caller's. *)
Definition forget {A} (m : Async Popup A) : Async Popup unit :=
  fun w =>
    match m w with
    | (w', Resolved _) => (w', Resolved tt)
    | (w', Rejected e) => (with_unhandled e w', Resolved tt)
    end.

(** The callback given to [chrome.tabs.query] in both functions. *)
Definition reload_tab : Async Popup unit :=
  fun w =>
    match tabs w with
    | [] => (w, Rejected (TypeError "Cannot read properties of undefined"))
    | tab :: _ =>
        (reply <- tabs_sendMessage tab "get-tab-state" None tab_state_reply ;;
         match reply with
         | None => throw (TypeError "Cannot destructure property of undefined")
         | Some r =>
             forget (tabs_sendMessage tab "reload-state"
                       (match tab_data r with
                        | Some d => tabState d
                        | None => None
                        end)
                       tab_reload_reply)
         end) w
    end.

(** [chrome.tabs.query({ active, currentWindow }, callback)]: the
    callback runs on its own. *)
Definition tabs_query (callback : Async Popup unit) : Async Popup unit :=
  fun w => forget callback (log TabsQuery w).

(** [deleteSignin] (lines 30-54) *)
Definition deleteSignin (id0 : string) : Async Popup unit :=
  reply <- sendMessage delete_resource_signins (IDeleteSignin id0) ;;
  match reply with
  | None => throw (TypeError "Cannot destructure property of undefined")
  | Some r =>
      match data r with
      | Some d =>
          if isDeleted d
          then setSignins (signins d) ;;; tabs_query reload_tab
          else ret tt
      | None => ret tt
      end
  end.

(** [updateAutoSignin] (lines 56-80) *)
Definition updateAutoSignin (signin : ISignin) : Async Popup unit :=
  reply <- sendMessage update_resource_auto_signin (IUpdateSignin signin) ;;
  match reply with
  | None => throw (TypeError "Cannot destructure property of undefined")
  | Some r =>
      match data r with
      | Some d =>
          match signins d with
          | Some l => setSignins (Some l) ;;; tabs_query reload_tab
          | None => ret tt
          end
      | None => ret tt
      end
  end.

End Component.

(** Events since [w0], oldest first. *)
Definition events_since (w0 w : Popup) : list Event :=
  rev (firstn (length (trace w) - length (trace w0)) (trace w)).

Definition is_reload (e : Event) : bool :=
  match e with
  | TabMessage _ subtype _ => subtype =? "reload-state"
  | _ => false
  end.

Definition is_replied (e : Event) : bool :=
  match e with Replied _ => true | _ => false end.

(** No reload notification before the first reply of a handler. *)
Fixpoint reload_after_reply (evs : list Event) : bool :=
  match evs with
  | [] => true
  | e :: rest =>
      if is_replied e then true
      else negb (is_reload e) && reload_after_reply rest
  end.

End SigninList.

(** ** The signin item of the page dialog (SigninItem) *)

Module SigninItem.

(** The message given to [chrome.runtime.sendMessage]. *)
Record Message := { type : string; subtype : string; data_signin : string }.

(** The page: how the background answers, the messages sent, what was
    logged and alerted, and whether the element "__root" is in the
    document. *)
Record Page := {
  headers_reply : Outcome string;
  sent : list Message;
  console : list string;
  alerted : list string;
  root : bool
}.

Definition runtime_sendMessage (m : Message) : Async Page string :=
  fun w =>
    ({| headers_reply := headers_reply w; sent := m :: sent w;
        console := console w; alerted := alerted w; root := root w |},
     headers_reply w).

Definition console_log (label v : string) : Async Page unit :=
  fun w =>
    ({| headers_reply := headers_reply w; sent := sent w;
        console := String.append label v :: console w; alerted := alerted w;
        root := root w |},
     Resolved tt).

Definition alert (msg : string) : Async Page unit :=
  fun w =>
    ({| headers_reply := headers_reply w; sent := sent w;
        console := console w; alerted := msg :: alerted w; root := root w |},
     Resolved tt).

(** [document.getElementById("__root")] followed by [element.remove()]
    when the element is there. *)
Definition remove_root : Async Page unit :=
  fun w =>
    ({| headers_reply := headers_reply w; sent := sent w;
        console := console w; alerted := alerted w; root := false |},
     Resolved tt).

(** [handleClick] of the item rendered for [signin] (lines 5-17). *)
Definition handleClick (signin : ISignin) : Async Page unit :=
  headers <- runtime_sendMessage
               {| type := "authentication";
                  subtype := "get-signed-headers";
                  data_signin := "selectedAID" |} ;;
  console_log "Signed headers: " headers ;;;
  alert "Signed headers received" ;;;
  remove_root.

End SigninItem.

(** ** Vocabulary of the statements about the session *)

Module SessionFacts.
Import Session.

(** The outcome the next call of a mock settles with, and the mock after
    that call. *)
Definition next {A} (m : Mock A) : Outcome A := fst (call m).
Definition rest {A} (m : Mock A) : Mock A := snd (call m).

(** The first of the steps of [connect] that fails in [w], in the order
    they run: [ready], the constructor, the handshake, the state
    read-back, the persistence of the controller identifier. *)
Definition first_failure (w : World) : option Err :=
  match next (ready w) with
  | Rejected e => Some e
  | Resolved _ =>
      match next (SignifyClient w) with
      | Rejected e => Some e
      | Resolved _ =>
          match next (client_connect w) with
          | Rejected e => Some e
          | Resolved _ =>
              match next (client_state w) with
              | Rejected e => Some e
              | Resolved _ =>
                  match next (setControllerId w) with
                  | Rejected e => Some e
                  | Resolved _ => None
                  end
              end
          end
      end
  end.

(** The first half of [isConnected] (lines 121-128): the reads and the
    lazy reconnect. *)
Definition lazy_reconnect : M unit :=
  passcode <- getPasscode ;;
  url <- getAgentUrl ;;
  c <- get_client ;;
  if truthy url && truthy passcode && negb (live c)
  then
    connect (match url with Some u => u | None => "" end)
            (match passcode with Some p => p | None => "" end) ;;;
    alarms_clear "passcode-timeout" ;;;
    alarms_create "passcode-timeout" 5
  else ret tt.

(** The second half of [isConnected] (lines 130-136): the state query. *)
Definition check_live : M bool :=
  try_catch
    (state <- call_client_state_opt ;;
     c <- get_client ;;
     ret (live c && truthy (controller_i state)))
    (fun error => ret false).

(** The world in which [isConnected] queries the state of the client. *)
Definition at_query (w : World) : World := fst (lazy_reconnect w).

Definition is_alarm_clear (c : Call) : bool :=
  match c with CallAlarmsClear _ => true | _ => false end.

Definition is_alarm_create (c : Call) : bool :=
  match c with CallAlarmsCreate _ _ => true | _ => false end.

Definition is_alarm_call (c : Call) : bool :=
  is_alarm_clear c || is_alarm_create c.


(** The handle [connect] stores for its arguments. *)
Definition handle_of (agentUrl passcode : string) : Handle :=
  {| h_url := agentUrl; h_passcode := passcode; h_tier := Tier_low |}.

(** The world of the test file before each test: every mock resolves, the
    state carries the controller identifier, nothing is stored. *)
Definition test_state : option AgentState :=
  Some {| controller :=
            Some {| state := Some {| i := Some "test-controller-id" |} |} |}.

Definition test_world : World :=
  {| _client := None;
     ready := mockResolvedValue tt;
     SignifyClient := mockResolvedValue tt;
     client_connect := mockResolvedValue true;
     client_state := mockResolvedValue test_state;
     setControllerId := mockResolvedValue tt;
     passcode := None;
     controllerId := None;
     agentUrl := None;
     alarms := [];
     calls := [] |}.

(** [getPasscode] and [getAgentUrl] answering with stored values. *)
Definition with_stored (p u : option string) (w : World) : World :=
  {| _client := _client w; ready := ready w; SignifyClient := SignifyClient w;
     client_connect := client_connect w; client_state := client_state w;
     setControllerId := setControllerId w; passcode := p;
     controllerId := controllerId w; agentUrl := u;
     alarms := alarms w; calls := calls w |}.

(** A session with a live handle, as the test sets [_client = mockClient]. *)
Definition connected_world : World :=
  with_client (Some (handle_of "http://example.com/agent" "test-passcode")) test_world.

(** No handle, stored passcode and agent URL. *)
Definition stored_world : World :=
  with_stored (Some "stored-passcode") (Some "http://stored-url.com") test_world.

(** [mockClient.connect.mockRejectedValueOnce(new Error('Connect error'))] *)
Definition handshake_fails (w : World) : World :=
  with_client_connect
    (mockRejectedValueOnce (Error "Connect error") (client_connect w)) w.

(** [mockClient.state.mockRejectedValueOnce(new Error('State error'))] *)
Definition state_fails (w : World) : World :=
  with_client_state
    (mockRejectedValueOnce (Error "State error") (client_state w)) w.

(** The world left by a first successful [connect]. *)
Definition after_connect : World :=
  fst (connect "http://example.com/agent" "test-passcode" test_world).

(** The stored credentials. *)
Definition credentials (w : World) : option string * option string * option string :=
  (passcode w, controllerId w, agentUrl w).

End SessionFacts.

(** ** Vocabulary of the statements about interleaved calls *)

Module TaskFacts.
Import Session SessionFacts Tasks.

(** A task that met no rejection so far. *)
Definition unfailed (pc : Pc) : bool :=
  match pc with
  | Start => true
  | AwaitReady o => is_resolved o
  | AwaitConnect o => is_resolved o
  | AwaitState o => is_resolved o
  | AwaitPersist o => is_resolved o
  | Done None => true
  | Done (Some _) => false
  end.

Definition nbuilt (ts : list Task) : nat :=
  length (filter (fun t => built (t_pc t)) ts).

(** The task is a call of [connect] with these arguments. *)
Definition same_call (agentUrl passcode : string) (t : Task) : Prop :=
  t_url t = agentUrl /\ t_passcode t = passcode.

(** Two calls resumed in turn, each one step at a time. *)
Definition alternate : list nat := [0; 1; 0; 1; 0; 1; 0; 1; 0; 1].

End TaskFacts.

(** ** Vocabulary of the statements about the signin list *)

Module SigninListFacts.
Import SigninList.

(** What a mutation leaves behind: the stored collection, the component's
    state and how the call settled. *)
Definition mutation_result (r : Popup * Outcome unit)
  : list ISignin * option (list ISignin) * Outcome unit :=
  (registry (fst r), ui_signins (fst r), snd r).

(** A background whose "delete signin" handler is [delete_handler]; the
    other requests answer with the stored collection. *)
Definition registry_background (type : UiEvent) (p : Payload) (coll : list ISignin)
  : list ISignin * Outcome (option Reply) :=
  match type, p with
  | delete_resource_signins, IDeleteSignin id0 => delete_handler id0 coll
  | _, _ =>
      (coll, Resolved (Some {| data := Some {| isDeleted := false; signins := Some coll |} |}))
  end.

Definition signin_a : ISignin :=
  {| id := "a"; domain := "x.com"; identifier := None;
     autoSignin := false; updatedAt := 0 |}.

Definition signin_b : ISignin :=
  {| id := "b"; domain := "y.com";
     identifier := Some {| name := "alice"; prefix := "EAbc" |};
     autoSignin := true; updatedAt := 1 |}.

(** A popup over the collection [a; b] with an active tab 7 whose content
    script answers. *)
Definition popup0 : Popup :=
  {| registry := [signin_a; signin_b];
     ui_signins := Some [signin_a; signin_b];
     tabs := [Some 7];
     tab_state_reply := Resolved (Some {| tab_data := Some {| tabState := Some "default" |} |});
     tab_reload_reply := Resolved tt;
     trace := [];
     unhandled := [] |}.

(** The same popup with no content script in the tab. *)
Definition popup_no_script : Popup :=
  with_tab [Some 7]
    (Rejected (Error "Could not establish connection. Receiving end does not exist."))
    (Rejected (Error "Could not establish connection. Receiving end does not exist."))
    popup0.

End SigninListFacts.

(** ** Vocabulary of further statements about the session *)

Module SessionMore.
Import Session SessionFacts Tasks.

(** [isConnected] called [n] times in a row: the world after the last
    call. *)
Fixpoint polls (n : nat) (w : World) : World :=
  match n with
  | 0 => w
  | S k => polls k (fst (isConnected w))
  end.

(** 1 for a task that has not come to the constructor yet. *)
Definition may_build (pc : Pc) : nat :=
  match pc with
  | Start | AwaitReady _ => 1
  | _ => 0
  end.

Definition pending (ts : list Task) : nat :=
  list_sum (map (fun t => may_build (t_pc t)) ts).




(** A state that carries no controller identifier. *)
Definition state_without_id : option AgentState :=
  Some {| controller := Some {| state := Some {| i := None |} |} |}.

(** The identity client answering every state query without identifier. *)
Definition anonymous_agent (w : World) : World :=
  with_client_state (mockResolvedValue state_without_id) w.

(** An empty agent URL in the store. *)
Definition empty_url_world : World :=
  with_stored (Some "stored-passcode") (Some "") test_world.

End SessionMore.

(** ** The rest of the signin list component (components/signinList.tsx) *)

Module SigninView.
Import SigninList.

(** The component's two pieces of state: [signins] is [ui_signins] of the
    popup, [isLoading] is kept beside it. *)
Record ListState := { popup : Popup; isLoading : bool }.

(** A computation of the popup run inside the component. *)
Definition lift {A} (m : Async Popup A) : Async ListState A :=
  fun s =>
    let (p, o) := m (popup s) in
    ({| popup := p; isLoading := isLoading s |}, o).

Definition setIsLoading (b : bool) : Async ListState unit :=
  fun s => ({| popup := popup s; isLoading := b |}, Resolved tt).

(** [useState([])] and [useState(false)] *)
Definition initial (p : Popup) : ListState :=
  {| popup := with_ui_signins (Some []) p; isLoading := false |}.

(** What the component renders: the loader, one box per signin (its [key]
    and the [signin] prop of the card, from which both handlers are built)
    and the "no items" text. *)
Record Card := { key : string; card_signin : ISignin }.
Record View := { loader : bool; cards : list Card; noItems : bool }.

Definition card_of (signin : ISignin) : Card :=
  {| key := id signin; card_signin := signin |}.

(** The returned JSX (lines 86-110): [signins.map] throws on [undefined],
    [signins?.length] does not. *)
Definition render (s : ListState) : Outcome View :=
  match ui_signins (popup s) with
  | None => Rejected (TypeError "Cannot read properties of undefined (reading 'map')")
  | Some l =>
      Resolved {| loader := isLoading s;
                  cards := map card_of l;
                  noItems := negb (isLoading s) && Nat.eqb (length l) 0 |}
  end.

Section Component.

Variable background :
  UiEvent -> Payload -> list ISignin -> list ISignin * Outcome (option Reply).

(** [fetchSignins] (lines 21-28) *)
Definition fetchSignins : Async ListState unit :=
  setIsLoading true ;;;
  reply <- lift (sendMessage background fetch_resource_signins NoPayload) ;;
  match reply with
  | None => throw (TypeError "Cannot destructure property of undefined")
  | Some r =>
      lift (setSignins (match data r with
                        | Some d => signins d
                        | None => None
                        end)) ;;;
      setIsLoading false
  end.

(** [handleDelete={() => deleteSignin(signin.id)}] *)
Definition handleDelete (c : Card) : Async ListState unit :=
  lift (deleteSignin background (id (card_signin c))).

(** [handleAutoSignin={() => updateAutoSignin(signin)}] *)
Definition handleAutoSignin (c : Card) : Async ListState unit :=
  lift (updateAutoSignin background (card_signin c)).

End Component.

(** The reply says that a record was deleted. *)
Definition says_deleted (o : Outcome (option Reply)) : bool :=
  match o with
  | Resolved (Some r) =>
      match data r with
      | Some d => isDeleted d
      | None => false
      end
  | _ => false
  end.

(** The signins a reply carries, if any. *)
Definition carried (o : Outcome (option Reply)) : option (list ISignin) :=
  match o with
  | Resolved (Some r) =>
      match data r with
      | Some d => signins d
      | None => None
      end
  | _ => None
  end.

Definition is_tab_event (e : Event) : bool :=
  match e with
  | TabsQuery | TabMessage _ _ _ => true
  | _ => false
  end.

(** A background that rejects every request. *)
Definition dead_background (type : UiEvent) (p : Payload) (coll : list ISignin)
  : list ISignin * Outcome (option Reply) :=
  (coll, Rejected (Error "Could not establish connection. Receiving end does not exist.")).

(** A background that answers every request with an error payload. *)
Definition failing_background (type : UiEvent) (p : Payload) (coll : list ISignin)
  : list ISignin * Outcome (option Reply) :=
  (coll, Resolved (Some {| data := None |})).

(** The component showing the collection [a; b], not loading. *)
Definition loaded_list : ListState :=
  {| popup := SigninListFacts.popup0; isLoading := false |}.

(** The tab answered [get-tab-state] with an object. *)
Definition tab_answers (w : Popup) : bool :=
  match tabs w, tab_state_reply w with
  | Some _ :: _, Resolved (Some _) => true
  | _, _ => false
  end.

End SigninView.

(** ** Pages for the statements about the signin item *)

Module SigninItemFacts.
Import SigninItem.

(** The dialog is in the document and the background answers. *)
Definition page_answered : Page :=
  {| headers_reply := Resolved "signify-resource: EAbc";
     sent := []; console := []; alerted := []; root := true |}.

(** The dialog is in the document and the background cannot be reached. *)
Definition page_unanswered : Page :=
  {| headers_reply := Rejected (Error "Could not establish connection.");
     sent := []; console := []; alerted := []; root := true |}.

End SigninItemFacts.

(** ** The session code when the calls around it may fail too

    [Session] runs [connect] and [isConnected] against stored values that
    can always be read and an alarm table that can always be written.  In
    the source [getPasscode], [getAgentUrl], [alarms.clear] and
    [alarms.create] are jest mocks like the others: here each of them is
    scripted call by call, and the two functions are the same code over this
    larger environment. *)

Module Fallible.
Import Session.

Record Env := {
  world : World;
  getPasscode_calls : Mock unit;
  getAgentUrl_calls : Mock unit;
  alarms_clear_calls : Mock bool;
  alarms_create_calls : Mock unit
}.

Definition with_world (w : World) (b : Env) : Env :=
  {| world := w;
     getPasscode_calls := getPasscode_calls b;
     getAgentUrl_calls := getAgentUrl_calls b;
     alarms_clear_calls := alarms_clear_calls b;
     alarms_create_calls := alarms_create_calls b |}.

(** A call of the identity client or of the persistence write, as in
    [Session]. *)
Definition lift {A} (m : M A) : Async Env A :=
  fun b =>
    let (w', o) := m (world b) in
    (with_world w' b, o).

(** [userService.getPasscode()]: the stored passcode, unless the call
    rejects. *)
Definition getPasscode : Async Env (option string) :=
  fun b =>
    let (o, m) := call (getPasscode_calls b) in
    let b' := {| world := record CallGetPasscode (world b);
                 getPasscode_calls := m;
                 getAgentUrl_calls := getAgentUrl_calls b;
                 alarms_clear_calls := alarms_clear_calls b;
                 alarms_create_calls := alarms_create_calls b |} in
    match o with
    | Resolved _ => (b', Resolved (passcode (world b)))
    | Rejected e => (b', Rejected e)
    end.

(** [configService.getAgentUrl()] *)
Definition getAgentUrl : Async Env (option string) :=
  fun b =>
    let (o, m) := call (getAgentUrl_calls b) in
    let b' := {| world := record CallGetAgentUrl (world b);
                 getPasscode_calls := getPasscode_calls b;
                 getAgentUrl_calls := m;
                 alarms_clear_calls := alarms_clear_calls b;
                 alarms_create_calls := alarms_create_calls b |} in
    match o with
    | Resolved _ => (b', Resolved (agentUrl (world b)))
    | Rejected e => (b', Rejected e)
    end.

(** [browser.alarms.create(name, { delayInMinutes })]: the alarm is
    registered as in [Session], unless the call throws; then the table is
    left as it was. *)
Definition alarms_create (name : string) (delayInMinutes : nat) : Async Env unit :=
  fun b =>
    let (o, m) := call (alarms_create_calls b) in
    match o with
    | Resolved _ =>
        ({| world := fst (Session.alarms_create name delayInMinutes (world b));
            getPasscode_calls := getPasscode_calls b;
            getAgentUrl_calls := getAgentUrl_calls b;
            alarms_clear_calls := alarms_clear_calls b;
            alarms_create_calls := m |},
         Resolved tt)
    | Rejected e =>
        ({| world := record (CallAlarmsCreate name delayInMinutes) (world b);
            getPasscode_calls := getPasscode_calls b;
            getAgentUrl_calls := getAgentUrl_calls b;
            alarms_clear_calls := alarms_clear_calls b;
            alarms_create_calls := m |},
         Rejected e)
    end.

(** [browser.alarms.clear(name)] *)
Definition alarms_clear (name : string) : Async Env bool :=
  fun b =>
    let (o, m) := call (alarms_clear_calls b) in
    match o with
    | Resolved cleared =>
        ({| world := fst (Session.alarms_clear name (world b));
            getPasscode_calls := getPasscode_calls b;
            getAgentUrl_calls := getAgentUrl_calls b;
            alarms_clear_calls := m;
            alarms_create_calls := alarms_create_calls b |},
         Resolved cleared)
    | Rejected e =>
        ({| world := record (CallAlarmsClear name) (world b);
            getPasscode_calls := getPasscode_calls b;
            getAgentUrl_calls := getAgentUrl_calls b;
            alarms_clear_calls := m;
            alarms_create_calls := alarms_create_calls b |},
         Rejected e)
    end.

(** [connect] (connect.test.ts, lines 104-118); [alarms.create] is inside
    the try block. *)
Definition connect (agentUrl passcode : string) : Async Env (option Err) :=
  try_catch
    (lift call_ready ;;;
     h <- lift (new_SignifyClient agentUrl passcode Tier_low) ;;
     lift (set_client (Some h)) ;;;
     lift call_client_connect ;;;
     state <- lift call_client_state ;;
     lift (call_setControllerId (controller_i state)) ;;;
     alarms_create "passcode-timeout" 5 ;;;
     ret None)
    (fun error =>
       lift (set_client None) ;;;
       ret (Some error)).

(** [isConnected] (connect.test.ts, lines 120-137); the two reads and the
    two alarm calls are outside the try block. *)
Definition isConnected : Async Env bool :=
  passcode <- getPasscode ;;
  url <- getAgentUrl ;;
  c <- lift get_client ;;
  (if truthy url && truthy passcode && negb (live c)
   then
     connect (match url with Some u => u | None => "" end)
             (match passcode with Some p => p | None => "" end) ;;;
     alarms_clear "passcode-timeout" ;;;
     alarms_create "passcode-timeout" 5
   else ret tt) ;;;
  try_catch
    (state <- lift call_client_state_opt ;;
     c <- lift get_client ;;
     ret (live c && truthy (controller_i state)))
    (fun error => ret false).

End Fallible.

(** ** Vocabulary of the statements about the fallible environment *)

Module FallibleFacts.
Import Session SessionFacts.

(** The environment in which the four calls never fail. *)
Definition quiet (w : World) : Fallible.Env :=
  {| Fallible.world := w;
     Fallible.getPasscode_calls := mockResolvedValue tt;
     Fallible.getAgentUrl_calls := mockResolvedValue tt;
     Fallible.alarms_clear_calls := mockResolvedValue true;
     Fallible.alarms_create_calls := mockResolvedValue tt |}.

(** None of the calls that [isConnected] makes outside its try block
    rejects, now or later. *)
Definition outside_resolve (b : Fallible.Env) : bool :=
  resolves (Fallible.getPasscode_calls b) &&
  resolves (Fallible.getAgentUrl_calls b) &&
  resolves (Fallible.alarms_clear_calls b) &&
  resolves (Fallible.alarms_create_calls b).

(** The first half of [Fallible.isConnected] (lines 121-128). *)
Definition lazy_reconnect_io : Async Fallible.Env unit :=
  passcode <- Fallible.getPasscode ;;
  url <- Fallible.getAgentUrl ;;
  c <- Fallible.lift get_client ;;
  if truthy url && truthy passcode && negb (live c)
  then
    Fallible.connect (match url with Some u => u | None => "" end)
                     (match passcode with Some p => p | None => "" end) ;;;
    Fallible.alarms_clear "passcode-timeout" ;;;
    Fallible.alarms_create "passcode-timeout" 5
  else ret tt.



(** [alarms.create] throwing once. *)
Definition alarm_create_throws (b : Fallible.Env) : Fallible.Env :=
  {| Fallible.world := Fallible.world b;
     Fallible.getPasscode_calls := Fallible.getPasscode_calls b;
     Fallible.getAgentUrl_calls := Fallible.getAgentUrl_calls b;
     Fallible.alarms_clear_calls := Fallible.alarms_clear_calls b;
     Fallible.alarms_create_calls :=
       mockRejectedValueOnce (Error "Alarm error") (Fallible.alarms_create_calls b) |}.


End FallibleFacts.

(** * Properties of the session manager *)

Module SessionProofs.
Import Session SessionFacts.

Lemma call_eq {A} (m : Mock A) : call m = (next m, rest m).
Proof. unfold next, rest. destruct (call m); reflexivity. Qed.

Ltac unfold_async :=
  unfold isConnected, lazy_reconnect, check_live, connect, try_catch, bind,
    ret, throw, call_ready, new_SignifyClient, set_client, get_client,
    call_client_connect, call_client_state, call_client_state_opt,
    call_setControllerId, getPasscode, getAgentUrl, alarms_create,
    alarms_clear.

(** Splits on the outcome of the next mock call in the goal. *)
Ltac split_call :=
  match goal with
  | |- context [call ?m] =>
      rewrite (call_eq m); cbn;
      let o := fresh "o" in
      let E := fresh "E" in
      destruct (next m) as [o|o] eqn:E; cbn
  end.

Lemma since_app w0 w l :
  calls w = l ++ calls w0 -> since w0 w = rev l.
Proof.
  intros H. unfold since. rewrite H, length_app.
  replace (length l + length (calls w0) - length (calls w0)) with (length l + 0) by lia.
  rewrite firstn_app_2, firstn_O, app_nil_r. reflexivity.
Qed.


Lemma isConnected_phases w :
  isConnected w = (lazy_reconnect ;;; check_live) w.
Proof.
  unfold isConnected, lazy_reconnect, bind, getPasscode, getAgentUrl, get_client.
  cbn. destruct (truthy (agentUrl w) && truthy (passcode w) && negb (live (_client w))); cbn.
  - reflexivity.
  - reflexivity.
Qed.

Lemma cons_prefix (c : Call) l x t : l = x ++ t -> c :: l = (c :: x) ++ t.
Proof. intros ->. reflexivity. Qed.

Lemma nil_prefix (t : list Call) : t = [] ++ t.
Proof. reflexivity. Qed.

Ltac prefix := repeat (eapply cons_prefix); apply nil_prefix.

(** *** [connect] *)

Lemma connect_fails url pass w e :
  first_failure w = Some e ->
  exists w' l,
    connect url pass w = (w', Resolved (Some e)) /\
    _client w' = None /\ credentials w' = credentials w /\
    alarms w' = alarms w /\
    calls w' = l ++ calls w /\ filter is_alarm_call l = [].
Proof.
  unfold first_failure. intros H. unfold_async; cbn.
  repeat (split_call;
          [ rewrite ?E in H
          | rewrite ?E in H; inversion H; subst e; do 2 eexists;
            repeat split; try reflexivity; cbn; [prefix | reflexivity] ]).
  all: try discriminate.
Qed.

Lemma connect_succeeds url pass w :
  first_failure w = None ->
  exists w' st,
    connect url pass w = (w', Resolved None) /\
    next (client_state w) = Resolved st /\
    _client w' = Some (handle_of url pass) /\
    passcode w' = passcode w /\ agentUrl w' = agentUrl w /\
    controllerId w' = controller_i st /\
    client_state w' = rest (client_state w) /\
    alarms w' = ("passcode-timeout", 5) :: cancel "passcode-timeout" (alarms w) /\
    calls w' =
      [CallAlarmsCreate "passcode-timeout" 5;
       CallSetControllerId (controller_i st);
       CallClientState; CallClientConnect;
       CallSignifyClient url pass Tier_low; CallReady] ++ calls w.
Proof.
  unfold first_failure. intros H. unfold_async; cbn.
  repeat (split_call; [ rewrite ?E in H | rewrite ?E in H; discriminate H ]).
  do 2 eexists. repeat split; reflexivity.
Qed.

Lemma connect_total url pass w :
  exists w', connect url pass w = (w', Resolved (first_failure w)).
Proof.
  destruct (first_failure w) as [e|] eqn:F.
  - destruct (connect_fails url pass w e F) as (w' & l & H & _). eauto.
  - destruct (connect_succeeds url pass w F) as (w' & st & H & _). eauto.
Qed.

(** The constructor is called as soon as [ready] resolves, whether a
    handle is held or not. *)
Lemma connect_constructs url pass w w' r a :
  next (ready w) = Resolved a ->
  connect url pass w = (w', r) ->
  constructed w' = S (constructed w) /\
  (_client w' = None \/ _client w' = Some (handle_of url pass)).
Proof.
  intros R. unfold_async; cbn. rewrite (call_eq (ready w)), R; cbn.
  repeat split_call; intros H; inversion H; subst; cbn; auto.
Qed.

(** *** [isConnected] *)

Lemma lazy_reconnect_total w :
  lazy_reconnect w = (at_query w, Resolved tt).
Proof.
  unfold at_query. unfold lazy_reconnect, bind, getPasscode, getAgentUrl, get_client; cbn.
  destruct (truthy (agentUrl w) && truthy (passcode w) && negb (live (_client w))); cbn.
  - match goal with
    | |- context [connect ?u ?p ?w0] =>
        destruct (connect_total u p w0) as [w1 ->]
    end.
    reflexivity.
  - reflexivity.
Qed.

Lemma check_live_spec w :
  exists w' b,
    check_live w = (w', Resolved b) /\
    _client w' = _client w /\
    (b = true <->
     exists h st id,
       _client w = Some h /\ next (client_state w) = Resolved st /\
       controller_i st = Some id /\ id <> "") /\
    (forall e, next (client_state w) = Rejected e -> b = false).
Proof.
  unfold_async; cbn. destruct (_client w) as [h|] eqn:C; cbn.
  - unfold call_client_state; rewrite C; cbn. rewrite call_eq; cbn. destruct (next (client_state w)) as [st|e] eqn:E; cbn.
    + rewrite C; cbn. do 2 eexists. split; [reflexivity|]. split; [exact C|]. split.
      * unfold truthy. destruct (controller_i st) as [s|] eqn:I.
        -- destruct (String.eqb_spec s ""); cbn; split.
           ++ discriminate.
           ++ intros (h' & st' & id' & _ & Q & J & N). inversion Q; subst st'.
              rewrite I in J. inversion J; subst. contradiction.
           ++ intros _. exists h, st, s. auto.
           ++ reflexivity.
        -- split; [discriminate|].
           intros (h' & st' & id' & _ & Q & J & N). inversion Q; subst st'.
           rewrite I in J. discriminate.
      * discriminate.
    + do 2 eexists. split; [reflexivity|]. split; [exact C|]. split.
      * split; [discriminate|].
        intros (h' & st' & id' & _ & Q & _). discriminate.
      * reflexivity.
  - rewrite C; cbn. do 2 eexists. split; [reflexivity|]. split; [exact C|]. split.
    + split; [discriminate|]. intros (h' & st' & id' & Q & _). discriminate.
    + reflexivity.
Qed.

Lemma isConnected_check w : isConnected w = check_live (at_query w).
Proof.
  rewrite isConnected_phases. unfold bind at 1. rewrite lazy_reconnect_total.
  reflexivity.
Qed.

Lemma at_query_live w h :
  _client w = Some h ->
  at_query w = record CallGetAgentUrl (record CallGetPasscode w).
Proof.
  intros C. unfold at_query, lazy_reconnect, bind, getPasscode, getAgentUrl, get_client; cbn.
  rewrite C; cbn. rewrite !andb_false_r. reflexivity.
Qed.

Lemma at_query_reconnect w u p :
  _client w = None -> agentUrl w = Some u -> passcode w = Some p ->
  u <> "" -> p <> "" ->
  at_query w =
    fst (alarms_create "passcode-timeout" 5
           (fst (alarms_clear "passcode-timeout"
                   (fst (connect u p (record CallGetAgentUrl (record CallGetPasscode w))))))).
Proof.
  intros C U P Nu Np.
  unfold at_query, lazy_reconnect, bind, getPasscode, getAgentUrl, get_client; cbn.
  rewrite C, U, P; cbn.
  destruct (String.eqb_spec u ""); [contradiction|].
  destruct (String.eqb_spec p ""); [contradiction|]. cbn.
  match goal with
  | |- context [connect ?a ?b ?w0] => destruct (connect_total a b w0) as [w1 ->]
  end.
  reflexivity.
Qed.


(** *** The unit tests of connect.test.ts, run on the model *)

(** "connects to a Signify client with correct parameters", "sets the
    controller ID after successful connection" and "sets a timeout alarm
    after successful connection". *)
Example test_connect :
  snd (connect "http://example.com/agent" "test-passcode" test_world) = Resolved None /\
  since test_world after_connect =
    [CallReady;
     CallSignifyClient "http://example.com/agent" "test-passcode" "low";
     CallClientConnect; CallClientState;
     CallSetControllerId (Some "test-controller-id");
     CallAlarmsCreate "passcode-timeout" 5] /\
  _client after_connect = Some (handle_of "http://example.com/agent" "test-passcode") /\
  controllerId after_connect = Some "test-controller-id".
Proof. vm_compute. auto. Qed.

(** "handles errors during connection" *)
Example test_connect_error :
  snd (connect "http://example.com/agent" "test-passcode" (handshake_fails test_world))
    = Resolved (Some (Error "Connect error")) /\
  _client (fst (connect "http://example.com/agent" "test-passcode"
                  (handshake_fails test_world))) = None.
Proof. vm_compute. auto. Qed.

(** "returns true when client is connected" *)
Example test_isConnected_live :
  snd (isConnected connected_world) = Resolved true.
Proof. vm_compute. reflexivity. Qed.

(** "attempts to connect if client is not connected but credentials exist"
    and "resets timeout alarm after successful connection". *)
Example test_isConnected_reconnect :
  snd (isConnected stored_world) = Resolved true /\
  since stored_world (fst (isConnected stored_world)) =
    [CallGetPasscode; CallGetAgentUrl; CallReady;
     CallSignifyClient "http://stored-url.com" "stored-passcode" "low";
     CallClientConnect; CallClientState;
     CallSetControllerId (Some "test-controller-id");
     CallAlarmsCreate "passcode-timeout" 5;
     CallAlarmsClear "passcode-timeout";
     CallAlarmsCreate "passcode-timeout" 5;
     CallClientState].
Proof. vm_compute. auto. Qed.

(** "returns false when connect attempt fails" *)
Example test_isConnected_connect_fails :
  snd (isConnected (handshake_fails stored_world)) = Resolved false.
Proof. vm_compute. reflexivity. Qed.

(** "returns false when client exists but state is invalid" *)
Example test_isConnected_state_error :
  snd (isConnected (state_fails connected_world)) = Resolved false.
Proof. vm_compute. reflexivity. Qed.

(** "returns false when controller ID is not available" *)
Example test_isConnected_no_controller_id :
  snd (isConnected
         (with_client_state
            (mockResolvedValueOnce
               (Some {| controller := Some {| state := Some {| i := None |} |} |})
               (client_state connected_world))
            connected_world))
    = Resolved false.
Proof. vm_compute. reflexivity. Qed.

(** "returns false when no passcode or URL is available" *)
Example test_isConnected_nothing_stored :
  snd (isConnected test_world) = Resolved false /\
  constructed (fst (isConnected test_world)) = 0.
Proof. vm_compute. auto. Qed.

(** *** The claims *)

(** C3: when a step of [connect] fails (ready, client construction,
    handshake, state read-back or persistence of the controller
    identifier), [connect] returns the error as a value instead of
    throwing, the in-memory handle is cleared and the stored credentials
    are what they were. *)
Theorem connect_failure_contained url pass w e :
  first_failure w = Some e ->
  exists w',
    connect url pass w = (w', Resolved (Some e)) /\
    _client w' = None /\
    credentials w' = credentials w.
Proof.
  intros F. destruct (connect_fails url pass w e F) as (w' & l & H & C & K & _).
  exists w'. auto.
Qed.

Lemma connect_failure_contained_witness :
  exists w',
    connect "http://example.com/agent" "test-passcode" (handshake_fails connected_world)
      = (w', Resolved (Some (Error "Connect error"))) /\
    _client w' = None /\
    credentials w' = credentials (handshake_fails connected_world).
Proof.
  apply (connect_failure_contained "http://example.com/agent" "test-passcode"
           (handshake_fails connected_world) (Error "Connect error")).
  reflexivity.
Defined.





(** A reconnect that succeeds does not by itself make [isConnected] return
    [true]: the state is queried once more afterwards. *)
Lemma reconnect_succeeds_yet_false :
  first_failure
    (record CallGetAgentUrl
       (record CallGetPasscode
          (with_client_state
             (mockResolvedValueOnce test_state
                (mockResolvedValue (Some {| controller := None |})))
             stored_world)))
    = None /\
  snd (isConnected
         (with_client_state
            (mockResolvedValueOnce test_state
               (mockResolvedValue (Some {| controller := None |})))
            stored_world))
    = Resolved false.
Proof. vm_compute. auto. Qed.



(** C7, as stated, fails: a [connect] made while a handle exists
    constructs a second client. *)
Lemma second_connect_constructs_again :
  _client after_connect = Some (handle_of "http://example.com/agent" "test-passcode") /\
  constructed after_connect = 1 /\
  constructed (fst (connect "http://example.com/agent" "test-passcode" after_connect)) = 2.
Proof. vm_compute. auto. Qed.

Lemma isConnected_keeps_handle w h :
  _client w = Some h ->
  constructed (fst (isConnected w)) = constructed w /\
  _client (fst (isConnected w)) = Some h.
Proof.
  intros C. rewrite isConnected_check, (at_query_live w h C).
  unfold_async; cbn. rewrite C; cbn.
  unfold call_client_state; cbn. rewrite C; cbn. rewrite call_eq; cbn.
  destruct (next (client_state w)); cbn; auto.
Qed.

(** C7, amended: the session holds at most one handle, in the variable
    [_client].  [isConnected] called while a handle exists keeps that
    handle and constructs no client.  A [connect] call does not look at the
    handle: whenever [ready] resolves it calls the constructor once more,
    and afterwards [_client] is the client built from its arguments, or
    [null]. *)
Theorem handle_reuse :
  (forall w h,
      _client w = Some h ->
      constructed (fst (isConnected w)) = constructed w /\
      _client (fst (isConnected w)) = Some h) /\
  (forall url pass w a,
      next (ready w) = Resolved a ->
      constructed (fst (connect url pass w)) = S (constructed w) /\
      (_client (fst (connect url pass w)) = None \/
       _client (fst (connect url pass w)) = Some (handle_of url pass))).
Proof.
  split.
  - exact isConnected_keeps_handle.
  - intros url pass w a R.
    apply (connect_constructs url pass w _ (snd (connect url pass w)) a R).
    destruct (connect url pass w); reflexivity.
Qed.

Lemma handle_reuse_witness :
  (constructed (fst (isConnected connected_world)) = constructed connected_world /\
   _client (fst (isConnected connected_world))
     = Some (handle_of "http://example.com/agent" "test-passcode")) /\
  (constructed (fst (connect "http://other.example/agent" "other-passcode" after_connect))
     = S (constructed after_connect) /\
   (_client (fst (connect "http://other.example/agent" "other-passcode" after_connect)) = None \/
    _client (fst (connect "http://other.example/agent" "other-passcode" after_connect))
      = Some (handle_of "http://other.example/agent" "other-passcode"))).
Proof.
  split.
  - apply (proj1 handle_reuse connected_world). reflexivity.
  - apply (proj2 handle_reuse "http://other.example/agent" "other-passcode" after_connect tt).
    vm_compute. reflexivity.
Defined.

End SessionProofs.

(** * Properties of interleaved [connect] calls *)

Module TaskProofs.
Import Session SessionFacts Tasks TaskFacts SessionProofs.

Lemma resolves_next {A} (m : Mock A) :
  resolves m = true -> is_resolved (next m) = true /\ resolves (rest m) = true.
Proof.
  unfold resolves, next, rest, call. destruct m as [[|o q] d]; cbn.
  - intros H. rewrite H. auto.
  - intros H. apply andb_prop in H as [H1 H2]. apply andb_prop in H1 as [H0 H1].
    rewrite H0, H1, H2. auto.
Qed.

(** A call run alone is [connect]. *)
Lemma connect_steps url pass w :
  exists w' r,
    steps 5 url pass Start w = (w', Done r) /\
    connect url pass w = (w', Resolved r).
Proof.
  unfold steps, step, caught. unfold_async; cbn.
  repeat (split_call; try (do 2 eexists; split; reflexivity)).
Qed.

Section ValidCredentials.

Variables agentUrl passcode : string.

Lemma step_valid pc w w' pc' :
  all_resolve w = true ->
  unfailed pc = true ->
  (built pc = true -> _client w <> None) ->
  step agentUrl passcode pc w = (w', pc') ->
  all_resolve w' = true /\
  unfailed pc' = true /\
  constructed w' + (if built pc then 1 else 0)
    = constructed w + (if built pc' then 1 else 0) /\
  (_client w <> None -> _client w' <> None) /\
  (built pc' = true -> _client w' <> None).
Proof.
  unfold all_resolve. intros V U B.
  apply andb_prop in V as [V R5]. apply andb_prop in V as [V R4].
  apply andb_prop in V as [V R3]. apply andb_prop in V as [R1 R2].
  destruct (resolves_next _ R1) as [N1 Q1].
  destruct (resolves_next _ R2) as [N2 Q2].
  destruct (resolves_next _ R3) as [N3 Q3].
  destruct (resolves_next _ R4) as [N4 Q4].
  destruct (resolves_next _ R5) as [N5 Q5].
  destruct pc as [|o|o|o|o|r]; cbn in U.
  - unfold step, call_ready. rewrite call_eq. intros H; inversion H; subst; cbn.
    rewrite Q1, R2, R3, R4, R5, N1. repeat split; auto.
  - destruct o as [a|e]; [|discriminate U].
    unfold step, new_SignifyClient, call_client_connect. rewrite call_eq.
    destruct (next (SignifyClient w)) as [a2|e2]; [|discriminate N2]. cbn.
    rewrite call_eq. intros H; inversion H; subst; cbn.
    rewrite R1, Q2, Q3, R4, R5, N3. unfold constructed; cbn.
    repeat split; auto; try discriminate; try lia.
  - destruct o as [a|e]; [|discriminate U].
    unfold step. destruct (_client w) as [h|] eqn:C; [|exfalso; apply B; reflexivity].
    unfold call_client_state. rewrite C, call_eq.
    intros H; inversion H; subst; cbn.
    rewrite R1, R2, R3, Q4, R5, N4, C. repeat split; auto; discriminate.
  - destruct o as [a|e]; [|discriminate U].
    unfold step, call_setControllerId. rewrite call_eq.
    destruct (next (setControllerId w)) as [a2|e2]; [|discriminate N5].
    intros H; inversion H; subst; cbn.
    rewrite R1, R2, R3, R4, Q5. repeat split; auto.
  - destruct o as [a|e]; [|discriminate U].
    unfold step, alarms_create. intros H; inversion H; subst; cbn.
    rewrite R1, R2, R3, R4, R5. repeat split; auto.
  - destruct r; [discriminate U|].
    unfold step. intros H; inversion H; subst; cbn.
    rewrite R1, R2, R3, R4, R5. repeat split; auto.
Qed.

Lemma nbuilt_cons t rest :
  nbuilt (t :: rest) = (if built (t_pc t) then 1 else 0) + nbuilt rest.
Proof. unfold nbuilt; cbn. destruct (built (t_pc t)); reflexivity. Qed.

Lemma resume_valid k ts w ts' w' :
  all_resolve w = true ->
  Forall (same_call agentUrl passcode) ts ->
  forallb (fun t => unfailed (t_pc t)) ts = true ->
  (nbuilt ts <> 0 -> _client w <> None) ->
  resume k ts w = (ts', w') ->
  all_resolve w' = true /\
  Forall (same_call agentUrl passcode) ts' /\
  forallb (fun t => unfailed (t_pc t)) ts' = true /\
  constructed w' + nbuilt ts = constructed w + nbuilt ts' /\
  (_client w <> None -> _client w' <> None) /\
  (nbuilt ts' <> 0 -> _client w' <> None).
Proof.
  revert k w ts' w'.
  induction ts as [|t rest IH]; intros k w ts' w' V S U B H.
  - cbn in H. inversion H; subst. repeat split; auto.
  - cbn in U. apply andb_prop in U as [Ut Ur].
    apply Forall_cons_iff in S as [[Su Sp] Sr].
    rewrite nbuilt_cons in B.
    destruct k as [|k]; cbn in H.
    + destruct (step (t_url t) (t_passcode t) (t_pc t) w) as [w1 pc1] eqn:E.
      inversion H; subst ts' w'. rewrite Su, Sp in E.
      assert (Bt : built (t_pc t) = true -> _client w <> None).
      { intros Bt. apply B. rewrite Bt. discriminate. }
      destruct (step_valid _ _ _ _ V Ut Bt E) as (V1 & U1 & K & C1 & B1).
      split; [exact V1|]. split.
      { constructor; [split; assumption | exact Sr]. }
      split; [cbn; rewrite U1; exact Ur|].
      rewrite !nbuilt_cons. cbn [t_pc].
      split; [lia|]. split; [exact C1|].
      intros N. destruct (built pc1) eqn:Bn.
      * apply B1. reflexivity.
      * apply C1, B. cbn in N. lia.
    + destruct (resume k rest w) as [rest' w1] eqn:E.
      inversion H; subst ts' w'.
      assert (Br : nbuilt rest <> 0 -> _client w <> None).
      { intros N. apply B. lia. }
      destruct (IH k w rest' w1 V Sr Ur Br E) as (V1 & S1 & U1 & K & C1 & B1).
      split; [exact V1|]. split; [constructor; [split; assumption | exact S1]|].
      split; [cbn; rewrite Ut; exact U1|].
      rewrite !nbuilt_cons.
      split; [lia|]. split; [exact C1|].
      intros N. destruct (built (t_pc t)) eqn:Bo.
      * apply C1, B. discriminate.
      * apply B1. cbn in N. exact N.
Qed.

Lemma run_valid sched ts w ts' w' :
  all_resolve w = true ->
  Forall (same_call agentUrl passcode) ts ->
  forallb (fun t => unfailed (t_pc t)) ts = true ->
  (nbuilt ts <> 0 -> _client w <> None) ->
  run sched ts w = (ts', w') ->
  forallb (fun t => unfailed (t_pc t)) ts' = true /\
  constructed w' + nbuilt ts = constructed w + nbuilt ts' /\
  length ts' = length ts.
Proof.
  revert ts w.
  induction sched as [|k sched IH]; intros ts w V S U B H; cbn in H.
  - inversion H; subst. auto.
  - destruct (resume k ts w) as [ts1 w1] eqn:E.
    destruct (resume_valid _ _ _ _ _ V S U B E) as (V1 & S1 & U1 & K & _ & B1).
    destruct (IH ts1 w1 V1 S1 U1 B1 H) as (U2 & K2 & L2).
    split; [exact U2|]. split; [lia|].
    rewrite L2. clear - E. revert k w ts1 w1 E.
    induction ts as [|t rest IHr]; intros k w ts1 w1 E; cbn in E.
    + inversion E; reflexivity.
    + destruct k as [|k].
      * destruct (step (t_url t) (t_passcode t) (t_pc t) w).
        inversion E; reflexivity.
      * destruct (resume k rest w) as [r1 w2] eqn:E2.
        inversion E; subst. cbn. f_equal. exact (IHr _ _ _ _ E2).
Qed.

Lemma spawn_fresh n :
  Forall (same_call agentUrl passcode) (spawn n agentUrl passcode) /\
  forallb (fun t => unfailed (t_pc t)) (spawn n agentUrl passcode) = true /\
  nbuilt (spawn n agentUrl passcode) = 0 /\
  length (spawn n agentUrl passcode) = n.
Proof.
  unfold spawn, nbuilt. induction n as [|n (S & U & B & L)]; cbn.
  - repeat split; auto.
  - repeat split; auto. constructor; [split; reflexivity | exact S].
Qed.

Lemma all_finished_built ts :
  forallb (fun t => unfailed (t_pc t)) ts = true ->
  forallb finished ts = true ->
  nbuilt ts = length ts.
Proof.
  unfold nbuilt. induction ts as [|t rest IH]; cbn; [reflexivity|].
  intros U F. apply andb_prop in U as [Ut Ur]. apply andb_prop in F as [Ft Fr].
  unfold finished in Ft.
  destruct (t_pc t) as [| | | | |[e|]]; cbn in *; try discriminate.
  f_equal. exact (IH Ur Fr).
Qed.

End ValidCredentials.

(** C1, as stated, fails: two [connect] calls with the same valid
    credentials, resumed in turn, construct two clients. *)
Lemma two_concurrent_connects_construct_two :
  all_resolve test_world = true /\
  forallb finished
    (fst (run alternate (spawn 2 "http://example.com/agent" "test-passcode") test_world))
    = true /\
  constructed
    (snd (run alternate (spawn 2 "http://example.com/agent" "test-passcode") test_world))
    = 2.
Proof. vm_compute. auto. Qed.

(** C1, amended: [connect] has no in-flight guard.  With valid
    credentials (no call of the identity client or of the persistence write
    rejects), [n] calls of [connect] issued together construct [n] clients,
    one per call, however the event loop interleaves them. *)
Theorem concurrent_connects_construct_each n agentUrl passcode sched w ts' w' :
  all_resolve w = true ->
  run sched (spawn n agentUrl passcode) w = (ts', w') ->
  forallb finished ts' = true ->
  constructed w' = constructed w + n.
Proof.
  intros V R F.
  destruct (spawn_fresh agentUrl passcode n) as (S & U & B & L).
  assert (B0 : nbuilt (spawn n agentUrl passcode) <> 0 -> _client w <> None).
  { rewrite B. intros N. contradiction. }
  destruct (run_valid agentUrl passcode _ _ _ _ _ V S U B0 R) as (U' & K & L').
  rewrite (all_finished_built _ U' F), B, L', L in K. lia.
Qed.

Lemma concurrent_connects_construct_each_witness :
  constructed
    (snd (run alternate (spawn 2 "http://example.com/agent" "test-passcode") test_world))
    = constructed test_world + 2.
Proof.
  apply (concurrent_connects_construct_each 2
           "http://example.com/agent" "test-passcode" alternate test_world
           (fst (run alternate (spawn 2 "http://example.com/agent" "test-passcode") test_world))).
  - reflexivity.
  - vm_compute. reflexivity.
  - vm_compute. reflexivity.
Defined.

End TaskProofs.

(** * Properties of the signin list *)

Module SigninListProofs.
Import SigninList SigninListFacts.

Lemma delete_absent id0 coll :
  ~ In id0 (map id coll) -> delete id0 coll = (false, coll).
Proof.
  unfold delete. intros N.
  assert (H : existsb (fun s => id s =? id0) coll = false /\
              filter (fun s => negb (id s =? id0)) coll = coll).
  { induction coll as [|s coll IH]; cbn; [split; reflexivity|].
    destruct (String.eqb_spec (id s) id0) as [E|E].
    - exfalso. apply N. left. exact E.
    - cbn. destruct IH as [X Y].
      + intros I. apply N. right. exact I.
      + rewrite X, Y. split; reflexivity. }
  destruct H as [X Y]. rewrite X, Y. reflexivity.
Qed.

Lemma delete_removes id0 coll :
  ~ In id0 (map id (snd (delete id0 coll))).
Proof.
  unfold delete; cbn. induction coll as [|s coll IH]; cbn; [tauto|].
  destruct (String.eqb_spec (id s) id0) as [E|E]; cbn; [exact IH|].
  intros [I|I]; [contradiction | exact (IH I)].
Qed.

Lemma delete_handler_absent id0 coll :
  ~ In id0 (map id coll) ->
  delete_handler id0 coll =
    (coll,
     Resolved (Some {| data := Some {| isDeleted := false; signins := Some coll |} |})).
Proof.
  intros N. unfold delete_handler. rewrite (delete_absent id0 coll N). reflexivity.
Qed.

Lemma delete_handler_remaining id0 coll :
  fst (delete_handler id0 coll) = snd (delete id0 coll).
Proof. reflexivity. Qed.

(** C8: deleting an [id] that is absent from the collection answers
    [isDeleted = false] with the unchanged collection, and the reply is a
    value, not an error; in particular a second delete of the same [id]
    does so. *)
Theorem delete_idempotent id0 coll :
  (~ In id0 (map id coll) ->
   delete_handler id0 coll =
     (coll,
      Resolved (Some {| data := Some {| isDeleted := false; signins := Some coll |} |}))) /\
  delete_handler id0 (fst (delete_handler id0 coll)) =
    (fst (delete_handler id0 coll),
     Resolved
       (Some {| data := Some {| isDeleted := false;
                                signins := Some (fst (delete_handler id0 coll)) |} |})).
Proof.
  split.
  - apply delete_handler_absent.
  - apply delete_handler_absent. rewrite delete_handler_remaining.
    apply delete_removes.
Qed.

Lemma delete_idempotent_witness :
  delete_handler "c" [signin_a; signin_b] =
    ([signin_a; signin_b],
     Resolved (Some {| data := Some {| isDeleted := false;
                                       signins := Some [signin_a; signin_b] |} |})).
Proof.
  apply (proj1 (delete_idempotent "c" [signin_a; signin_b])).
  cbn. intros [H|[H|H]]; [discriminate H | discriminate H | exact H].
Defined.

(** The first delete of a present [id] removes it. *)
Example delete_present :
  delete_handler "a" [signin_a; signin_b] =
    ([signin_b],
     Resolved (Some {| data := Some {| isDeleted := true; signins := Some [signin_b] |} |})).
Proof. reflexivity. Qed.

Lemma recent_app (l t : list Event) :
  rev (firstn (length (l ++ t) - length t) (l ++ t)) = rev l.
Proof.
  rewrite length_app.
  replace (length l + length t - length t) with (length l + 0) by lia.
  rewrite firstn_app_2, firstn_O, app_nil_r. reflexivity.
Qed.

Lemma events_since_app w0 w l :
  trace w = l ++ trace w0 -> events_since w0 w = rev l.
Proof. intros H. unfold events_since. rewrite H. apply recent_app. Qed.

Section AnyBackground.

Variable background :
  UiEvent -> Payload -> list ISignin -> list ISignin * Outcome (option Reply).

(** The notification never rejects to its caller, touches neither the
    collection nor the component's state, and only adds tab events. *)
Lemma tabs_query_frame w :
  exists l,
    snd (tabs_query reload_tab w) = Resolved tt /\
    registry (fst (tabs_query reload_tab w)) = registry w /\
    ui_signins (fst (tabs_query reload_tab w)) = ui_signins w /\
    trace (fst (tabs_query reload_tab w)) = l ++ TabsQuery :: trace w /\
    forallb (fun e => negb (is_replied e)) l = true.
Proof.
  unfold tabs_query, forget, reload_tab, bind, throw, tabs_sendMessage; cbn.
  destruct (tabs w) as [|[t|] ts]; cbn.
  - exists []. repeat split; reflexivity.
  - destruct (tab_state_reply w) as [[r|]|e]; cbn.
    + destruct (tab_reload_reply w); cbn;
        eexists [TabMessage t "reload-state" _; TabMessage t "get-tab-state" None];
        repeat split; reflexivity.
    + exists [TabMessage t "get-tab-state" None]. repeat split; reflexivity.
    + exists [TabMessage t "get-tab-state" None]. repeat split; reflexivity.
  - exists []. repeat split; reflexivity.
Qed.

Lemma reload_after_reply_prefix l type p :
  reload_after_reply (rev (l ++ [Replied type; Sent type p])) = true.
Proof. rewrite rev_app_distr. reflexivity. Qed.

Lemma deleteSignin_trace id0 w :
  exists l,
    trace (fst (deleteSignin background id0 w)) =
      (l ++ [Replied delete_resource_signins;
             Sent delete_resource_signins (IDeleteSignin id0)]) ++ trace w.
Proof.
  unfold deleteSignin, bind, sendMessage, throw, ret, setSignins; cbn.
  destruct (background delete_resource_signins (IDeleteSignin id0) (registry w))
    as [r [[[[d|]]|]|e]]; cbn; try (exists []; reflexivity).
  destruct (isDeleted d); cbn; [|exists []; reflexivity].
  match goal with
  | |- context [tabs_query reload_tab ?w1] =>
      destruct (tabs_query_frame w1) as (l & _ & _ & _ & T & _); rewrite T
  end.
  exists (l ++ [TabsQuery; SetSignins (signins d)]). cbn.
  rewrite <- !app_assoc. reflexivity.
Qed.

Lemma updateAutoSignin_trace signin w :
  exists l,
    trace (fst (updateAutoSignin background signin w)) =
      (l ++ [Replied update_resource_auto_signin;
             Sent update_resource_auto_signin (IUpdateSignin signin)]) ++ trace w.
Proof.
  unfold updateAutoSignin, bind, sendMessage, throw, ret, setSignins; cbn.
  destruct (background update_resource_auto_signin (IUpdateSignin signin) (registry w))
    as [r [[[[d|]]|]|e]]; cbn; try (exists []; reflexivity).
  destruct (signins d) as [s|]; cbn; [|exists []; reflexivity].
  match goal with
  | |- context [tabs_query reload_tab ?w1] =>
      destruct (tabs_query_frame w1) as (l & _ & _ & _ & T & _); rewrite T
  end.
  exists (l ++ [TabsQuery; SetSignins (Some s)]). cbn.
  rewrite <- !app_assoc. reflexivity.
Qed.

Lemma deleteSignin_result id0 ts st rl w :
  mutation_result (deleteSignin background id0 (with_tab ts st rl w)) =
  mutation_result (deleteSignin background id0 w).
Proof.
  unfold mutation_result, deleteSignin, bind, sendMessage, throw, ret, setSignins; cbn.
  destruct (background delete_resource_signins (IDeleteSignin id0) (registry w))
    as [r [[[[d|]]|]|e]]; cbn; try reflexivity.
  destruct (isDeleted d); cbn; [|reflexivity].
  repeat match goal with
  | |- context [tabs_query reload_tab ?w1] =>
      let l := fresh "l" in
      let O := fresh "O" in
      let R := fresh "R" in
      let U := fresh "U" in
      destruct (tabs_query_frame w1) as (l & O & R & U & _);
      rewrite O, R, U; clear O R U
  end.
  reflexivity.
Qed.

Lemma updateAutoSignin_result signin ts st rl w :
  mutation_result (updateAutoSignin background signin (with_tab ts st rl w)) =
  mutation_result (updateAutoSignin background signin w).
Proof.
  unfold mutation_result, updateAutoSignin, bind, sendMessage, throw, ret, setSignins; cbn.
  destruct (background update_resource_auto_signin (IUpdateSignin signin) (registry w))
    as [r [[[[d|]]|]|e]]; cbn; try reflexivity.
  destruct (signins d) as [s|]; cbn; [|reflexivity].
  repeat match goal with
  | |- context [tabs_query reload_tab ?w1] =>
      let l := fresh "l" in
      let O := fresh "O" in
      let R := fresh "R" in
      let U := fresh "U" in
      destruct (tabs_query_frame w1) as (l & O & R & U & _);
      rewrite O, R, U; clear O R U
  end.
  reflexivity.
Qed.

End AnyBackground.

(** C9: in [deleteSignin] and in [updateAutoSignin] no "reload-state"
    message goes to the tab before the reply of the mutation handler has
    come back, and what the tab side does (no tab, no content script, a
    rejected message) changes neither the stored collection, nor the
    component's state, nor the way the call settles. *)
Theorem reload_follows_mutation background w :
  (forall id0,
      reload_after_reply (events_since w (fst (deleteSignin background id0 w))) = true /\
      forall ts st rl,
        mutation_result (deleteSignin background id0 (with_tab ts st rl w)) =
        mutation_result (deleteSignin background id0 w)) /\
  (forall signin,
      reload_after_reply (events_since w (fst (updateAutoSignin background signin w))) = true /\
      forall ts st rl,
        mutation_result (updateAutoSignin background signin (with_tab ts st rl w)) =
        mutation_result (updateAutoSignin background signin w)).
Proof.
  split.
  - intros id0. split.
    + destruct (deleteSignin_trace background id0 w) as [l T].
      rewrite (events_since_app _ _ _ T). apply reload_after_reply_prefix.
    + intros ts st rl. apply deleteSignin_result.
  - intros signin. split.
    + destruct (updateAutoSignin_trace background signin w) as [l T].
      rewrite (events_since_app _ _ _ T). apply reload_after_reply_prefix.
    + intros ts st rl. apply updateAutoSignin_result.
Qed.

(** The notification is sent when the delete went through, after the
    reply. *)
Example deleteSignin_notifies :
  events_since popup0 (fst (deleteSignin registry_background "a" popup0)) =
    [Sent delete_resource_signins (IDeleteSignin "a");
     Replied delete_resource_signins;
     SetSignins (Some [signin_b]);
     TabsQuery;
     TabMessage 7 "get-tab-state" None;
     TabMessage 7 "reload-state" (Some "default")].
Proof. reflexivity. Qed.

(** Without a content script the delete still goes through; the rejection
    stays with the callback. *)
Example deleteSignin_without_content_script :
  mutation_result (deleteSignin registry_background "a" popup_no_script) =
    ([signin_b], Some [signin_b], Resolved tt) /\
  unhandled (fst (deleteSignin registry_background "a" popup_no_script)) =
    [Error "Could not establish connection. Receiving end does not exist."].
Proof. split; reflexivity. Qed.

(** Deleting an absent [id] changes nothing in the popup and notifies
    nobody. *)
Example deleteSignin_absent :
  mutation_result (deleteSignin registry_background "c" popup0) =
    ([signin_a; signin_b], Some [signin_a; signin_b], Resolved tt) /\
  events_since popup0 (fst (deleteSignin registry_background "c" popup0)) =
    [Sent delete_resource_signins (IDeleteSignin "c");
     Replied delete_resource_signins].
Proof. split; reflexivity. Qed.

End SigninListProofs.

(** * Properties of the signin item *)

Module SigninItemProofs.
Import SigninItem.

(** C10: whichever record the item shows, a click sends one
    "get-signed-headers" request whose [signin] field is the constant
    "selectedAID"; nothing of the record goes into the request, and the
    click does the same for every record. *)
Theorem handleClick_sends_selectedAID signin w :
  sent (fst (handleClick signin w)) =
    {| type := "authentication";
       subtype := "get-signed-headers";
       data_signin := "selectedAID" |} :: sent w /\
  forall other, handleClick other w = handleClick signin w.
Proof.
  split.
  - unfold handleClick, bind, runtime_sendMessage, console_log, alert, remove_root; cbn.
    destruct (headers_reply w); reflexivity.
  - intros other. reflexivity.
Qed.

End SigninItemProofs.

(** * Further properties of the session manager *)

Module SessionMoreProofs.
Import Session SessionFacts SessionMore SessionProofs.

Lemma check_live_calls w :
  (calls (fst (check_live w)) = calls w \/
   calls (fst (check_live w)) = CallClientState :: calls w) /\
  _client (fst (check_live w)) = _client w /\
  credentials (fst (check_live w)) = credentials w /\
  alarms (fst (check_live w)) = alarms w.
Proof.
  unfold_async; cbn. destruct (_client w) as [h|] eqn:C; cbn.
  - unfold call_client_state; rewrite C; cbn. rewrite call_eq; cbn.
    destruct (next (client_state w)); cbn; auto.
  - rewrite C. auto.
Qed.

(** X1: when none of its steps rejects, [connect] returns [undefined],
    holds the client built from its arguments and has stored the controller
    identifier of the state it read back, whatever that is: a state without
    identifier is not an error, and [undefined] is stored then.  The calls
    are, in order: ready, constructor, handshake, state, persistence,
    alarm. *)
Theorem connect_success_stores_read_back url pass w :
  first_failure w = None ->
  exists st,
    next (client_state w) = Resolved st /\
    snd (connect url pass w) = Resolved None /\
    _client (fst (connect url pass w)) = Some (handle_of url pass) /\
    controllerId (fst (connect url pass w)) = controller_i st /\
    since w (fst (connect url pass w)) =
      [CallReady; CallSignifyClient url pass Tier_low; CallClientConnect;
       CallClientState; CallSetControllerId (controller_i st);
       CallAlarmsCreate "passcode-timeout" 5].
Proof.
  intros F.
  destruct (connect_succeeds url pass w F)
    as (w' & st & H & S & C & _ & _ & I & _ & _ & K).
  exists st. rewrite H. cbn [fst snd].
  repeat split; auto.
  rewrite (since_app _ _ _ K). reflexivity.
Qed.

Lemma connect_success_stores_read_back_witness :
  exists st,
    next (client_state (anonymous_agent test_world)) = Resolved st /\
    snd (connect "http://example.com/agent" "test-passcode" (anonymous_agent test_world))
      = Resolved None /\
    _client (fst (connect "http://example.com/agent" "test-passcode"
                    (anonymous_agent test_world)))
      = Some (handle_of "http://example.com/agent" "test-passcode") /\
    controllerId (fst (connect "http://example.com/agent" "test-passcode"
                         (anonymous_agent test_world)))
      = controller_i st /\
    since (anonymous_agent test_world)
          (fst (connect "http://example.com/agent" "test-passcode"
                  (anonymous_agent test_world))) =
      [CallReady; CallSignifyClient "http://example.com/agent" "test-passcode" Tier_low;
       CallClientConnect; CallClientState; CallSetControllerId (controller_i st);
       CallAlarmsCreate "passcode-timeout" 5].
Proof.
  apply (connect_success_stores_read_back "http://example.com/agent" "test-passcode"
           (anonymous_agent test_world)).
  vm_compute. reflexivity.
Defined.

Ltac run_calls :=
  unfold_async; cbn;
  repeat (rewrite call_eq; cbn;
          repeat match goal with
                 | E : next _ = _ |- _ => rewrite E; cbn
                 end).

Lemma connect_fails_calls url pass w e :
  first_failure w = Some e ->
  exists l,
    calls (fst (connect url pass w)) = l ++ calls w /\
    alarms (fst (connect url pass w)) = alarms w /\
    filter is_alarm_call l = [] /\
    forall x,
      In (CallSetControllerId x) l ->
      exists st,
        next (client_state w) = Resolved st /\ x = controller_i st /\
        next (setControllerId w) = Rejected e.
Proof.
  unfold first_failure. intros H.
  destruct (next (ready w)) as [a1|e1] eqn:E1.
  2:{ inversion H; subst. run_calls. eexists. split; [prefix|].
      repeat split. intros x I. cbn in I. intuition discriminate. }
  destruct (next (SignifyClient w)) as [a2|e2] eqn:E2.
  2:{ inversion H; subst. run_calls. eexists. split; [prefix|].
      repeat split. intros x I. cbn in I. intuition discriminate. }
  destruct (next (client_connect w)) as [a3|e3] eqn:E3.
  2:{ inversion H; subst. run_calls. eexists. split; [prefix|].
      repeat split. intros x I. cbn in I. intuition discriminate. }
  destruct (next (client_state w)) as [a4|e4] eqn:E4.
  2:{ inversion H; subst. run_calls. eexists. split; [prefix|].
      repeat split. intros x I. cbn in I. intuition discriminate. }
  destruct (next (setControllerId w)) as [a5|e5] eqn:E5; [discriminate H|].
  inversion H; subst. run_calls. eexists. split; [prefix|].
  repeat split. intros x I. cbn in I.
  destruct I as [I|I]; [|intuition discriminate].
  inversion I; subst. exists a4. auto.
Qed.

Lemma filter_rev {A} (f : A -> bool) (l : list A) :
  filter f (rev l) = rev (filter f l).
Proof.
  induction l as [|a l IH]; cbn; [reflexivity|].
  rewrite filter_app, IH. cbn. destruct (f a); cbn.
  - reflexivity.
  - rewrite app_nil_r. reflexivity.
Qed.

Lemma connect_keeps_secrets url pass w :
  passcode (fst (connect url pass w)) = passcode w /\
  agentUrl (fst (connect url pass w)) = agentUrl w.
Proof.
  destruct (first_failure w) as [e|] eqn:F.
  - destruct (connect_fails url pass w e F) as (w' & l & H & _ & K & _).
    rewrite H. cbn. unfold credentials in K. inversion K. auto.
  - destruct (connect_succeeds url pass w F) as (w' & st & H & _ & _ & P & U & _).
    rewrite H. cbn. auto.
Qed.

Lemma at_query_idle w :
  truthy (agentUrl w) && truthy (passcode w) && negb (live (_client w)) = false ->
  at_query w = record CallGetAgentUrl (record CallGetPasscode w).
Proof.
  intros G. unfold at_query, lazy_reconnect, bind, getPasscode, getAgentUrl, get_client; cbn.
  rewrite G. reflexivity.
Qed.

Lemma at_query_keeps_secrets w :
  passcode (at_query w) = passcode w /\ agentUrl (at_query w) = agentUrl w.
Proof.
  unfold at_query, lazy_reconnect, bind, getPasscode, getAgentUrl, get_client; cbn.
  destruct (truthy (agentUrl w) && truthy (passcode w) && negb (live (_client w))); cbn.
  - match goal with
    | |- context [connect ?u ?p ?w0] =>
        destruct (connect_keeps_secrets u p w0) as [P U];
        destruct (connect u p w0) as [w1 [r|e]]
    end; cbn in *; auto.
  - auto.
Qed.

Lemma isConnected_world w : fst (isConnected w) = fst (check_live (at_query w)).
Proof. rewrite isConnected_check. reflexivity. Qed.

(** X3: neither [connect] nor [isConnected] ever changes the stored
    passcode or the configured agent URL, whatever the identity client
    answers. *)
Theorem secrets_untouched url pass w :
  passcode (fst (connect url pass w)) = passcode w /\
  agentUrl (fst (connect url pass w)) = agentUrl w /\
  passcode (fst (isConnected w)) = passcode w /\
  agentUrl (fst (isConnected w)) = agentUrl w.
Proof.
  destruct (connect_keeps_secrets url pass w) as [P U].
  split; [exact P|]. split; [exact U|].
  rewrite isConnected_world.
  destruct (check_live_calls (at_query w)) as (_ & _ & K & _).
  unfold credentials in K. inversion K as [[Kp Kc Ku]].
  destruct (at_query_keeps_secrets w) as [P' U'].
  rewrite Kp, Ku. auto.
Qed.

(** X4: with no handle and a passcode or an agent URL that is missing or
    empty, [isConnected] answers [false] after the two reads and does
    nothing else: no client call, no client built, no alarm call. *)
Theorem isConnected_without_credentials w :
  _client w = None ->
  truthy (agentUrl w) && truthy (passcode w) = false ->
  isConnected w = (record CallGetAgentUrl (record CallGetPasscode w), Resolved false).
Proof.
  intros C G. rewrite isConnected_check, at_query_idle.
  - unfold_async; cbn. rewrite C. cbn. rewrite C. reflexivity.
  - rewrite G. reflexivity.
Qed.

Lemma isConnected_without_credentials_witness :
  isConnected empty_url_world =
    (record CallGetAgentUrl (record CallGetPasscode empty_url_world), Resolved false).
Proof.
  apply (isConnected_without_credentials empty_url_world); reflexivity.
Defined.

(** X5: once [isConnected] has answered [true], a handle is held, and the
    next call of [isConnected] builds no client and keeps that handle. *)
Theorem isConnected_true_then_no_reconnect w w' :
  isConnected w = (w', Resolved true) ->
  exists h,
    _client w' = Some h /\
    constructed (fst (isConnected w')) = constructed w' /\
    _client (fst (isConnected w')) = Some h.
Proof.
  rewrite isConnected_check. intros H.
  destruct (check_live_spec (at_query w)) as (w1 & b & E & C & I & _).
  rewrite E in H. inversion H; subst w1 b.
  destruct (proj1 I eq_refl) as (h & st & id0 & Ch & _).
  exists h. rewrite C. split; [exact Ch|].
  apply isConnected_keeps_handle. rewrite C. exact Ch.
Qed.

Lemma isConnected_true_then_no_reconnect_witness :
  exists h,
    _client (fst (isConnected stored_world)) = Some h /\
    constructed (fst (isConnected (fst (isConnected stored_world))))
      = constructed (fst (isConnected stored_world)) /\
    _client (fst (isConnected (fst (isConnected stored_world)))) = Some h.
Proof.
  apply (isConnected_true_then_no_reconnect stored_world).
  vm_compute. reflexivity.
Defined.

Lemma check_live_constructed w :
  constructed (fst (check_live w)) = constructed w.
Proof.
  destruct (check_live_calls w) as ([K|K] & _); unfold constructed; rewrite K; reflexivity.
Qed.

(** X6: with stored credentials and no handle there is no back-off: every
    call of [isConnected] asks the constructor for a client as soon as
    [ready] resolves, and leaves either no handle or the one built from the
    stored credentials. *)
Theorem isConnected_retries w u p a :
  _client w = None -> agentUrl w = Some u -> passcode w = Some p ->
  u <> "" -> p <> "" ->
  next (ready w) = Resolved a ->
  constructed (fst (isConnected w)) = S (constructed w) /\
  (_client (fst (isConnected w)) = None \/
   _client (fst (isConnected w)) = Some (handle_of u p)).
Proof.
  intros C U P Nu Np R.
  rewrite isConnected_world, check_live_constructed.
  destruct (check_live_calls (at_query w)) as (_ & Cl & _). rewrite Cl.
  rewrite (at_query_reconnect w u p C U P Nu Np).
  set (w0 := record CallGetAgentUrl (record CallGetPasscode w)).
  assert (R0 : next (ready w0) = Resolved a) by exact R.
  destruct (connect u p w0) as [w1 r] eqn:E.
  destruct (connect_constructs u p w0 w1 r a R0 E) as [K H].
  cbn. unfold constructed in *. cbn. split; [exact K | exact H].
Qed.

Lemma isConnected_retries_witness :
  constructed (fst (isConnected (handshake_fails stored_world)))
    = S (constructed (handshake_fails stored_world)) /\
  (_client (fst (isConnected (handshake_fails stored_world))) = None \/
   _client (fst (isConnected (handshake_fails stored_world)))
     = Some (handle_of "http://stored-url.com" "stored-passcode")).
Proof.
  apply (isConnected_retries (handshake_fails stored_world)
           "http://stored-url.com" "stored-passcode" tt).
  - reflexivity.
  - reflexivity.
  - reflexivity.
  - discriminate.
  - discriminate.
  - reflexivity.
Defined.

(** X7: a lazy reconnect in which no step rejects stores the controller
    identifier that [connect] read back and leaves the handle built from the
    stored credentials. *)
Theorem isConnected_reconnect_persists w u p :
  _client w = None -> agentUrl w = Some u -> passcode w = Some p ->
  u <> "" -> p <> "" ->
  first_failure w = None ->
  exists st,
    next (client_state w) = Resolved st /\
    controllerId (fst (isConnected w)) = controller_i st /\
    _client (fst (isConnected w)) = Some (handle_of u p).
Proof.
  intros C U P Nu Np F.
  set (w0 := record CallGetAgentUrl (record CallGetPasscode w)).
  assert (F0 : first_failure w0 = None) by exact F.
  destruct (connect_succeeds u p w0 F0) as (w1 & st & H & S & Ch & _ & _ & I & _).
  exists st. split; [exact S|].
  rewrite isConnected_world.
  destruct (check_live_calls (at_query w)) as (_ & Cl & K & _).
  unfold credentials in K. inversion K as [[Kp Kc Ku]].
  rewrite Cl, Kc, (at_query_reconnect w u p C U P Nu Np).
  fold w0. rewrite H. cbn. auto.
Qed.

Lemma isConnected_reconnect_persists_witness :
  exists st,
    next (client_state stored_world) = Resolved st /\
    controllerId (fst (isConnected stored_world)) = controller_i st /\
    _client (fst (isConnected stored_world))
      = Some (handle_of "http://stored-url.com" "stored-passcode").
Proof.
  apply (isConnected_reconnect_persists stored_world
           "http://stored-url.com" "stored-passcode").
  - reflexivity.
  - reflexivity.
  - reflexivity.
  - discriminate.
  - discriminate.
  - reflexivity.
Defined.

Lemma isConnected_live_frame w h :
  _client w = Some h ->
  alarms (fst (isConnected w)) = alarms w /\
  credentials (fst (isConnected w)) = credentials w.
Proof.
  intros C. rewrite isConnected_world, (at_query_live w h C).
  destruct (check_live_calls (record CallGetAgentUrl (record CallGetPasscode w)))
    as (_ & _ & K & A).
  rewrite K, A. auto.
Qed.

(** X8: while a handle is held, [isConnected] may be called any number of
    times, with state queries that succeed, fail or lack the identifier:
    it never builds a client, never drops or replaces the handle, never
    touches the alarm and never changes what is stored. *)
Theorem polling_keeps_session n w h :
  _client w = Some h ->
  _client (polls n w) = Some h /\
  constructed (polls n w) = constructed w /\
  alarms (polls n w) = alarms w /\
  credentials (polls n w) = credentials w.
Proof.
  revert w. induction n as [|n IH]; intros w C; cbn [polls].
  - auto.
  - destruct (isConnected_keeps_handle w h C) as [K C1].
    destruct (isConnected_live_frame w h C) as [A Cr].
    destruct (IH _ C1) as (C2 & K2 & A2 & Cr2).
    rewrite K2, A2, Cr2. auto.
Qed.

Lemma polling_keeps_session_witness :
  _client (polls 3 (state_fails connected_world))
    = Some (handle_of "http://example.com/agent" "test-passcode") /\
  constructed (polls 3 (state_fails connected_world))
    = constructed (state_fails connected_world) /\
  alarms (polls 3 (state_fails connected_world)) = alarms (state_fails connected_world) /\
  credentials (polls 3 (state_fails connected_world))
    = credentials (state_fails connected_world).
Proof.
  apply (polling_keeps_session 3 (state_fails connected_world)
           (handle_of "http://example.com/agent" "test-passcode")).
  reflexivity.
Defined.

End SessionMoreProofs.

(** * Further properties of interleaved [connect] calls *)

Module TaskMoreProofs.
Import Session SessionFacts Tasks TaskFacts SessionMore SessionProofs TaskProofs.

Lemma step_bound url pass pc w :
  constructed (fst (step url pass pc w)) + may_build (snd (step url pass pc w))
    <= constructed w + may_build pc.
Proof.
  unfold constructed.
  destruct pc as [|[a|e]|[a|e]|[a|e]|[a|e]|r]; cbn; try lia.
  - unfold call_ready. rewrite call_eq. cbn. lia.
  - unfold new_SignifyClient, call_client_connect. rewrite call_eq.
    destruct (next (SignifyClient w)); cbn; [rewrite call_eq; cbn|]; lia.
  - destruct (_client w) eqn:C; cbn; [|lia].
    unfold call_client_state. rewrite C, call_eq. cbn. lia.
  - unfold call_setControllerId. rewrite call_eq.
    destruct (next (setControllerId w)); cbn; lia.
Qed.

Lemma pending_cons t rest :
  pending (t :: rest) = may_build (t_pc t) + pending rest.
Proof. reflexivity. Qed.

Lemma resume_bound k ts w :
  constructed (snd (resume k ts w)) + pending (fst (resume k ts w))
    <= constructed w + pending ts.
Proof.
  revert k w. induction ts as [|t rest IH]; intros k w; cbn [resume].
  - cbn [fst snd]. lia.
  - destruct k as [|k].
    + pose proof (step_bound (t_url t) (t_passcode t) (t_pc t) w) as B.
      destruct (step (t_url t) (t_passcode t) (t_pc t) w) as [w1 pc1].
      cbn [fst snd] in *. rewrite !pending_cons. cbn [t_pc]. lia.
    + specialize (IH k w). destruct (resume k rest w) as [rest' w1].
      cbn [fst snd] in *. rewrite !pending_cons. lia.
Qed.

Lemma run_bound sched ts w :
  constructed (snd (run sched ts w)) + pending (fst (run sched ts w))
    <= constructed w + pending ts.
Proof.
  revert ts w. induction sched as [|k sched IH]; intros ts w; cbn [run].
  - cbn [fst snd]. lia.
  - pose proof (resume_bound k ts w) as B.
    destruct (resume k ts w) as [ts1 w1]. cbn [fst snd] in B.
    specialize (IH ts1 w1). lia.
Qed.

Lemma pending_spawn n url pass : pending (spawn n url pass) = n.
Proof.
  unfold pending, spawn. induction n as [|n IH]; cbn; [reflexivity|].
  f_equal. exact IH.
Qed.

(** X9: whatever rejects and however the event loop interleaves them, [n]
    calls of [connect] ask the constructor for at most [n] clients: a call
    never constructs twice. *)
Theorem connects_construct_at_most_each n url pass sched w :
  constructed (snd (run sched (spawn n url pass) w)) <= constructed w + n.
Proof.
  pose proof (run_bound sched (spawn n url pass) w) as B.
  rewrite pending_spawn in B. lia.
Qed.

Section ValidCredentialsMore.

Variables agentUrl passcode : string.






End ValidCredentialsMore.



End TaskMoreProofs.

(** * Further properties of the signin list *)

Module SigninViewProofs.
Import SigninList SigninListFacts SigninView SigninListProofs.

Section AnyBackgroundMore.

Variable background :
  UiEvent -> Payload -> list ISignin -> list ISignin * Outcome (option Reply).

Lemma fetchSignins_cases s :
  match snd (background fetch_resource_signins NoPayload (registry (popup s))) with
  | Resolved (Some r) =>
      snd (fetchSignins background s) = Resolved tt /\
      isLoading (fst (fetchSignins background s)) = false /\
      ui_signins (popup (fst (fetchSignins background s)))
        = carried (Resolved (Some r)) /\
      trace (popup (fst (fetchSignins background s)))
        = [SetSignins (carried (Resolved (Some r)));
           Replied fetch_resource_signins;
           Sent fetch_resource_signins NoPayload] ++ trace (popup s)
  | Resolved None =>
      snd (fetchSignins background s)
        = Rejected (TypeError "Cannot destructure property of undefined") /\
      isLoading (fst (fetchSignins background s)) = true /\
      ui_signins (popup (fst (fetchSignins background s))) = ui_signins (popup s)
  | Rejected e =>
      snd (fetchSignins background s) = Rejected e /\
      isLoading (fst (fetchSignins background s)) = true /\
      ui_signins (popup (fst (fetchSignins background s))) = ui_signins (popup s)
  end.
Proof.
  unfold fetchSignins, bind, lift, setIsLoading, sendMessage, setSignins, throw; cbn.
  destruct (background fetch_resource_signins NoPayload (registry (popup s)))
    as [reg [[r|]|e]]; cbn; auto.
Qed.

Lemma deleteSignin_cases id0 w :
  if says_deleted
       (snd (background delete_resource_signins (IDeleteSignin id0) (registry w)))
  then
    ui_signins (fst (deleteSignin background id0 w))
      = carried (snd (background delete_resource_signins (IDeleteSignin id0) (registry w))) /\
    exists l,
      trace (fst (deleteSignin background id0 w))
        = l ++ [TabsQuery;
                SetSignins (carried (snd (background delete_resource_signins
                                            (IDeleteSignin id0) (registry w))));
                Replied delete_resource_signins;
                Sent delete_resource_signins (IDeleteSignin id0)] ++ trace w
  else
    ui_signins (fst (deleteSignin background id0 w)) = ui_signins w /\
    trace (fst (deleteSignin background id0 w))
      = [Replied delete_resource_signins;
         Sent delete_resource_signins (IDeleteSignin id0)] ++ trace w.
Proof.
  unfold deleteSignin, bind, sendMessage, throw, ret, setSignins; cbn.
  destruct (background delete_resource_signins (IDeleteSignin id0) (registry w))
    as [r [[[[d|]]|]|e]]; cbn; auto.
  destruct (isDeleted d); cbn; auto.
  match goal with
  | |- context [tabs_query reload_tab ?w1] =>
      destruct (tabs_query_frame w1) as (l & _ & _ & U & T & _); rewrite T, U
  end.
  split; [reflexivity|]. exists l. reflexivity.
Qed.

Lemma updateAutoSignin_cases signin w :
  match carried
          (snd (background update_resource_auto_signin (IUpdateSignin signin) (registry w)))
  with
  | Some s =>
      ui_signins (fst (updateAutoSignin background signin w)) = Some s /\
      exists l,
        trace (fst (updateAutoSignin background signin w))
          = l ++ [TabsQuery; SetSignins (Some s);
                  Replied update_resource_auto_signin;
                  Sent update_resource_auto_signin (IUpdateSignin signin)] ++ trace w
  | None =>
      ui_signins (fst (updateAutoSignin background signin w)) = ui_signins w /\
      trace (fst (updateAutoSignin background signin w))
        = [Replied update_resource_auto_signin;
           Sent update_resource_auto_signin (IUpdateSignin signin)] ++ trace w
  end.
Proof.
  unfold updateAutoSignin, bind, sendMessage, throw, ret, setSignins; cbn.
  destruct (background update_resource_auto_signin (IUpdateSignin signin) (registry w))
    as [r [[[[d|]]|]|e]]; cbn; auto.
  destruct (signins d) as [s|]; cbn; auto.
  match goal with
  | |- context [tabs_query reload_tab ?w1] =>
      destruct (tabs_query_frame w1) as (l & _ & _ & U & T & _); rewrite T, U
  end.
  split; [reflexivity|]. exists l. reflexivity.
Qed.

End AnyBackgroundMore.

(** X11: when [fetchSignins] resolves, the loading flag is off, the
    component's [signins] are what the reply carried ([undefined] when the
    reply has no data or no signins), and no tab was queried or messaged. *)
Theorem fetchSignins_resolved background s :
  snd (fetchSignins background s) = Resolved tt ->
  isLoading (fst (fetchSignins background s)) = false /\
  ui_signins (popup (fst (fetchSignins background s)))
    = carried (snd (background fetch_resource_signins NoPayload (registry (popup s)))) /\
  filter is_tab_event
    (events_since (popup s) (popup (fst (fetchSignins background s)))) = [].
Proof.
  intros H. pose proof (fetchSignins_cases background s) as C.
  destruct (snd (background fetch_resource_signins NoPayload (registry (popup s))))
    as [[r|]|e].
  - destruct C as (_ & L & U & T). split; [exact L|]. split; [exact U|].
    rewrite (events_since_app _ _ _ T). reflexivity.
  - destruct C as (O & _). rewrite O in H. discriminate.
  - destruct C as (O & _). rewrite O in H. discriminate.
Qed.

Lemma fetchSignins_resolved_witness :
  isLoading (fst (fetchSignins registry_background (initial popup0))) = false /\
  ui_signins (popup (fst (fetchSignins registry_background (initial popup0))))
    = carried (snd (registry_background fetch_resource_signins NoPayload
                      (registry (popup (initial popup0))))) /\
  filter is_tab_event
    (events_since (popup (initial popup0))
       (popup (fst (fetchSignins registry_background (initial popup0))))) = [].
Proof.
  apply (fetchSignins_resolved registry_background (initial popup0)).
  reflexivity.
Defined.

(** X12: when [fetchSignins] rejects (the request is rejected, or the reply
    is [undefined]), the loading flag stays on and the component's
    [signins] are what they were. *)
Theorem fetchSignins_rejected background s e :
  snd (fetchSignins background s) = Rejected e ->
  isLoading (fst (fetchSignins background s)) = true /\
  ui_signins (popup (fst (fetchSignins background s))) = ui_signins (popup s).
Proof.
  intros H. pose proof (fetchSignins_cases background s) as C.
  destruct (snd (background fetch_resource_signins NoPayload (registry (popup s))))
    as [[r|]|e'].
  - destruct C as (O & _). rewrite O in H. discriminate.
  - destruct C as (_ & L & U). auto.
  - destruct C as (_ & L & U). auto.
Qed.

Lemma fetchSignins_rejected_witness :
  isLoading (fst (fetchSignins dead_background (initial popup0))) = true /\
  ui_signins (popup (fst (fetchSignins dead_background (initial popup0))))
    = ui_signins (popup (initial popup0)).
Proof.
  apply (fetchSignins_rejected dead_background (initial popup0)
           (Error "Could not establish connection. Receiving end does not exist.")).
  reflexivity.
Defined.

(** X13: the render that follows a resolved [fetchSignins] shows no loader
    and one card per carried signin, in order, with the "no items" text
    exactly when the list is empty; when the reply carried no signins (an
    error payload), that render throws on [signins.map]. *)
Theorem render_after_fetch background s :
  snd (fetchSignins background s) = Resolved tt ->
  render (fst (fetchSignins background s)) =
    match carried (snd (background fetch_resource_signins NoPayload (registry (popup s)))) with
    | Some l =>
        Resolved {| loader := false;
                    cards := map card_of l;
                    noItems := Nat.eqb (length l) 0 |}
    | None =>
        Rejected (TypeError "Cannot read properties of undefined (reading 'map')")
    end.
Proof.
  intros H. pose proof (fetchSignins_cases background s) as C.
  destruct (snd (background fetch_resource_signins NoPayload (registry (popup s))))
    as [[r|]|e].
  - destruct C as (_ & L & U & _). unfold render. rewrite U, L.
    destruct (carried (Resolved (Some r))); reflexivity.
  - destruct C as (O & _). rewrite O in H. discriminate.
  - destruct C as (O & _). rewrite O in H. discriminate.
Qed.

Lemma render_after_fetch_witness :
  render (fst (fetchSignins failing_background (initial popup0))) =
    match carried (snd (failing_background fetch_resource_signins NoPayload
                          (registry (popup (initial popup0))))) with
    | Some l =>
        Resolved {| loader := false;
                    cards := map card_of l;
                    noItems := Nat.eqb (length l) 0 |}
    | None =>
        Rejected (TypeError "Cannot read properties of undefined (reading 'map')")
    end.
Proof.
  apply (render_after_fetch failing_background (initial popup0)).
  reflexivity.
Defined.

Lemma in_rev_app_mid (l : list Event) (e : Event) pre :
  In e (rev (l ++ e :: pre)).
Proof. apply in_rev. rewrite rev_involutive. apply in_or_app. right. left. reflexivity. Qed.

(** X14: [deleteSignin] takes over the signins of the reply and queries the
    tabs exactly when the reply says [isDeleted]; otherwise the component's
    [signins] are unchanged and nothing happens beyond the request and its
    reply. *)
Theorem deleteSignin_follows_reply background id0 w :
  if says_deleted
       (snd (background delete_resource_signins (IDeleteSignin id0) (registry w)))
  then
    ui_signins (fst (deleteSignin background id0 w))
      = carried (snd (background delete_resource_signins (IDeleteSignin id0) (registry w))) /\
    In TabsQuery (events_since w (fst (deleteSignin background id0 w)))
  else
    ui_signins (fst (deleteSignin background id0 w)) = ui_signins w /\
    events_since w (fst (deleteSignin background id0 w))
      = [Sent delete_resource_signins (IDeleteSignin id0);
         Replied delete_resource_signins].
Proof.
  pose proof (deleteSignin_cases background id0 w) as C.
  destruct (says_deleted
              (snd (background delete_resource_signins (IDeleteSignin id0) (registry w)))).
  - destruct C as (U & l & T). split; [exact U|].
    rewrite app_assoc in T. rewrite (events_since_app _ _ _ T).
    apply in_rev_app_mid.
  - destruct C as (U & T). split; [exact U|].
    rewrite (events_since_app _ _ _ T). reflexivity.
Qed.

(** X15: [updateAutoSignin] takes over the signins of the reply and queries
    the tabs whenever the reply carries signins, an empty list included;
    without signins in the reply nothing changes in the component. *)
Theorem updateAutoSignin_follows_reply background signin w :
  match carried
          (snd (background update_resource_auto_signin (IUpdateSignin signin) (registry w)))
  with
  | Some s =>
      ui_signins (fst (updateAutoSignin background signin w)) = Some s /\
      In TabsQuery (events_since w (fst (updateAutoSignin background signin w)))
  | None =>
      ui_signins (fst (updateAutoSignin background signin w)) = ui_signins w /\
      events_since w (fst (updateAutoSignin background signin w))
        = [Sent update_resource_auto_signin (IUpdateSignin signin);
           Replied update_resource_auto_signin]
  end.
Proof.
  pose proof (updateAutoSignin_cases background signin w) as C.
  destruct (carried
              (snd (background update_resource_auto_signin (IUpdateSignin signin)
                      (registry w)))).
  - destruct C as (U & l0 & T). split; [exact U|].
    rewrite app_assoc in T. rewrite (events_since_app _ _ _ T).
    apply in_rev_app_mid.
  - destruct C as (U & T). split; [exact U|].
    rewrite (events_since_app _ _ _ T). reflexivity.
Qed.

Lemma lift_popup {A} (m : Async Popup A) s :
  popup (fst (lift m s)) = fst (m (popup s)).
Proof. unfold lift. destruct (m (popup s)); reflexivity. Qed.

(** X16: every card of a rendered list is keyed by the [id] of a signin of
    the component's list; its delete handler opens with the delete request
    for that very [id], its auto-signin handler with the update request for
    that very record. *)
Theorem card_handlers background s v c :
  render s = Resolved v ->
  In c (cards v) ->
  (exists l, ui_signins (popup s) = Some l /\ In (card_signin c) l) /\
  key c = id (card_signin c) /\
  hd_error (events_since (popup s) (popup (fst (handleDelete background c s))))
    = Some (Sent delete_resource_signins (IDeleteSignin (key c))) /\
  hd_error (events_since (popup s) (popup (fst (handleAutoSignin background c s))))
    = Some (Sent update_resource_auto_signin (IUpdateSignin (card_signin c))).
Proof.
  unfold render. destruct (ui_signins (popup s)) as [l|] eqn:U; [|discriminate].
  intros R I. inversion R; subst v. cbn in I.
  apply in_map_iff in I as (x & Ex & Ix). subst c. cbn.
  split; [exists l; auto|]. split; [reflexivity|].
  unfold handleDelete, handleAutoSignin. rewrite !lift_popup. cbn.
  destruct (deleteSignin_trace background (id x) (popup s)) as [l1 T1].
  destruct (updateAutoSignin_trace background x (popup s)) as [l2 T2].
  rewrite (events_since_app _ _ _ T1), (events_since_app _ _ _ T2).
  rewrite !rev_app_distr. split; reflexivity.
Qed.

Lemma card_handlers_witness :
  (exists l, ui_signins (popup loaded_list) = Some l /\
             In (card_signin (card_of signin_a)) l) /\
  key (card_of signin_a) = id (card_signin (card_of signin_a)) /\
  hd_error (events_since (popup loaded_list)
              (popup (fst (handleDelete registry_background (card_of signin_a) loaded_list))))
    = Some (Sent delete_resource_signins (IDeleteSignin (key (card_of signin_a)))) /\
  hd_error (events_since (popup loaded_list)
              (popup (fst (handleAutoSignin registry_background (card_of signin_a)
                             loaded_list))))
    = Some (Sent update_resource_auto_signin (IUpdateSignin (card_signin (card_of signin_a)))).
Proof.
  apply (card_handlers registry_background loaded_list
           {| loader := false;
              cards := map card_of [signin_a; signin_b];
              noItems := false |}
           (card_of signin_a)).
  - reflexivity.
  - left. reflexivity.
Defined.

Lemma reload_tab_trace w :
  trace (fst (reload_tab w)) =
    match tabs w with
    | Some t :: _ =>
        match tab_state_reply w with
        | Resolved (Some r) =>
            [TabMessage t "reload-state"
               (match tab_data r with Some d => tabState d | None => None end);
             TabMessage t "get-tab-state" None]
        | _ => [TabMessage t "get-tab-state" None]
        end
    | _ => []
    end ++ trace w.
Proof.
  unfold reload_tab, bind, throw, forget, tabs_sendMessage; cbn.
  destruct (tabs w) as [|[t|] ts]; cbn; try reflexivity.
  destruct (tab_state_reply w) as [[r|]|e]; cbn; try reflexivity.
  destruct (tab_reload_reply w); reflexivity.
Qed.

(** X17: the callback given to [chrome.tabs.query] sends "reload-state"
    exactly when the first reported tab has an id and answered
    "get-tab-state" with an object; the message goes to that same tab, after
    the "get-tab-state" message, and carries the tab state of the answer.
    In every other case no "reload-state" is sent and the callback
    rejects. *)
Theorem reload_tab_sends w :
  events_since w (fst (reload_tab w)) =
    match tabs w with
    | Some t :: _ =>
        TabMessage t "get-tab-state" None ::
        match tab_state_reply w with
        | Resolved (Some r) =>
            [TabMessage t "reload-state"
               (match tab_data r with Some d => tabState d | None => None end)]
        | _ => []
        end
    | _ => []
    end /\
  is_resolved (snd (reload_tab w)) = tab_answers w.
Proof.
  split.
  - rewrite (events_since_app _ _ _ (reload_tab_trace w)).
    destruct (tabs w) as [|[t|] ts]; try reflexivity.
    destruct (tab_state_reply w) as [[r|]|e]; reflexivity.
  - unfold tab_answers, reload_tab, bind, throw, forget, tabs_sendMessage; cbn.
    destruct (tabs w) as [|[t|] ts]; cbn; try reflexivity.
    destruct (tab_state_reply w) as [[r|]|e]; cbn; try reflexivity.
    destruct (tab_reload_reply w); reflexivity.
Qed.

End SigninViewProofs.

(** * Further properties of the signin item *)

Module SigninItemMoreProofs.
Import SigninItem SigninItemFacts SigninListFacts.

(** X18: when the request for signed headers is rejected, [handleClick]
    rejects with that error after sending the request: nothing is logged,
    no alert is shown and the element "__root" stays in the document. *)
Theorem handleClick_rejected signin w e :
  headers_reply w = Rejected e ->
  snd (handleClick signin w) = Rejected e /\
  console (fst (handleClick signin w)) = console w /\
  alerted (fst (handleClick signin w)) = alerted w /\
  root (fst (handleClick signin w)) = root w /\
  length (sent (fst (handleClick signin w))) = S (length (sent w)).
Proof.
  intros H. unfold handleClick, bind, runtime_sendMessage; cbn.
  rewrite H. cbn. auto.
Qed.

Lemma handleClick_rejected_witness :
  snd (handleClick signin_a page_unanswered)
    = Rejected (Error "Could not establish connection.") /\
  console (fst (handleClick signin_a page_unanswered)) = console page_unanswered /\
  alerted (fst (handleClick signin_a page_unanswered)) = alerted page_unanswered /\
  root (fst (handleClick signin_a page_unanswered)) = root page_unanswered /\
  length (sent (fst (handleClick signin_a page_unanswered)))
    = S (length (sent page_unanswered)).
Proof.
  apply (handleClick_rejected signin_a page_unanswered
           (Error "Could not establish connection.")).
  reflexivity.
Defined.

(** X19: when the request for signed headers resolves, [handleClick]
    resolves, logs the headers, shows the alert once and leaves no element
    "__root" in the document, whether there was one or not. *)
Theorem handleClick_resolved signin w headers :
  headers_reply w = Resolved headers ->
  snd (handleClick signin w) = Resolved tt /\
  console (fst (handleClick signin w))
    = String.append "Signed headers: " headers :: console w /\
  alerted (fst (handleClick signin w)) = "Signed headers received" :: alerted w /\
  root (fst (handleClick signin w)) = false.
Proof.
  intros H.
  unfold handleClick, bind, runtime_sendMessage, console_log, alert, remove_root; cbn.
  rewrite H. cbn. auto.
Qed.

Lemma handleClick_resolved_witness :
  snd (handleClick signin_a page_answered) = Resolved tt /\
  console (fst (handleClick signin_a page_answered))
    = String.append "Signed headers: " "signify-resource: EAbc" :: console page_answered /\
  alerted (fst (handleClick signin_a page_answered))
    = "Signed headers received" :: alerted page_answered /\
  root (fst (handleClick signin_a page_answered)) = false.
Proof.
  apply (handleClick_resolved signin_a page_answered "signify-resource: EAbc").
  reflexivity.
Defined.

End SigninItemMoreProofs.

(** * The session manager when the calls around it may fail *)

Module FallibleProofs.
Import Session SessionFacts SessionMore FallibleFacts SessionProofs SessionMoreProofs.
Import TaskProofs.

Ltac unfold_io :=
  unfold Fallible.isConnected, lazy_reconnect_io, Fallible.connect,
    Fallible.getPasscode, Fallible.getAgentUrl, Fallible.alarms_create,
    Fallible.alarms_clear, Fallible.lift, Fallible.with_world,
    try_catch, bind, ret, throw,
    call_ready, new_SignifyClient, set_client, get_client,
    call_client_connect, call_client_state, call_client_state_opt,
    call_setControllerId, Session.alarms_create, Session.alarms_clear.

Example test_io_connect :
  snd (Fallible.connect "http://example.com/agent" "test-passcode" (quiet test_world))
    = Resolved None /\
  Fallible.world
    (fst (Fallible.connect "http://example.com/agent" "test-passcode" (quiet test_world)))
    = after_connect.
Proof. vm_compute. auto. Qed.

Example test_io_isConnected :
  snd (Fallible.isConnected (quiet stored_world)) = Resolved true /\
  Fallible.world (fst (Fallible.isConnected (quiet stored_world)))
    = fst (isConnected stored_world).
Proof. vm_compute. auto. Qed.

Ltac run_io :=
  unfold_io; unfold_async; cbn;
  repeat (rewrite call_eq; cbn;
          repeat match goal with
                 | E : next _ = _ |- _ => rewrite E; cbn
                 end).

(** *** [Fallible.connect] *)

(** When one of the five steps before the alarm fails, the alarm call is
    not reached and [Fallible.connect] is [connect]. *)
Lemma connect_io_early url pass b e :
  first_failure (Fallible.world b) = Some e ->
  Fallible.connect url pass b =
    (Fallible.with_world (fst (connect url pass (Fallible.world b))) b,
     Resolved (Some e)).
Proof.
  unfold first_failure. intros H.
  destruct (next (ready (Fallible.world b))) as [a1|e1] eqn:E1.
  2:{ inversion H; subst. run_io. reflexivity. }
  destruct (next (SignifyClient (Fallible.world b))) as [a2|e2] eqn:E2.
  2:{ inversion H; subst. run_io. reflexivity. }
  destruct (next (client_connect (Fallible.world b))) as [a3|e3] eqn:E3.
  2:{ inversion H; subst. run_io. reflexivity. }
  destruct (next (client_state (Fallible.world b))) as [a4|e4] eqn:E4.
  2:{ inversion H; subst. run_io. reflexivity. }
  destruct (next (setControllerId (Fallible.world b))) as [a5|e5] eqn:E5; [discriminate H|].
  inversion H; subst. run_io. reflexivity.
Qed.

Lemma connect_io_success url pass b a :
  first_failure (Fallible.world b) = None ->
  next (Fallible.alarms_create_calls b) = Resolved a ->
  Fallible.connect url pass b =
    ({| Fallible.world := fst (connect url pass (Fallible.world b));
        Fallible.getPasscode_calls := Fallible.getPasscode_calls b;
        Fallible.getAgentUrl_calls := Fallible.getAgentUrl_calls b;
        Fallible.alarms_clear_calls := Fallible.alarms_clear_calls b;
        Fallible.alarms_create_calls := rest (Fallible.alarms_create_calls b) |},
     Resolved None).
Proof.
  unfold first_failure. intros H A.
  destruct (next (ready (Fallible.world b))) as [a1|e1] eqn:E1; [|discriminate H].
  destruct (next (SignifyClient (Fallible.world b))) as [a2|e2] eqn:E2; [|discriminate H].
  destruct (next (client_connect (Fallible.world b))) as [a3|e3] eqn:E3; [|discriminate H].
  destruct (next (client_state (Fallible.world b))) as [a4|e4] eqn:E4; [|discriminate H].
  destruct (next (setControllerId (Fallible.world b))) as [a5|e5] eqn:E5; [|discriminate H].
  run_io. reflexivity.
Qed.

(** When [alarms.create] throws after the five steps, the catch block
    runs: the handle is cleared, but the controller identifier is already
    written and the alarm call is on record. *)
Lemma connect_io_alarm_throws url pass b e :
  first_failure (Fallible.world b) = None ->
  next (Fallible.alarms_create_calls b) = Rejected e ->
  exists st w',
    next (client_state (Fallible.world b)) = Resolved st /\
    Fallible.connect url pass b =
      ({| Fallible.world := w';
          Fallible.getPasscode_calls := Fallible.getPasscode_calls b;
          Fallible.getAgentUrl_calls := Fallible.getAgentUrl_calls b;
          Fallible.alarms_clear_calls := Fallible.alarms_clear_calls b;
          Fallible.alarms_create_calls := rest (Fallible.alarms_create_calls b) |},
       Resolved (Some e)) /\
    _client w' = None /\
    alarms w' = alarms (Fallible.world b) /\
    controllerId w' = controller_i st /\
    passcode w' = passcode (Fallible.world b) /\
    agentUrl w' = agentUrl (Fallible.world b) /\
    calls w' =
      [CallAlarmsCreate "passcode-timeout" 5;
       CallSetControllerId (controller_i st);
       CallClientState; CallClientConnect;
       CallSignifyClient url pass Tier_low; CallReady] ++ calls (Fallible.world b).
Proof.
  unfold first_failure. intros H A.
  destruct (next (ready (Fallible.world b))) as [a1|e1] eqn:E1; [|discriminate H].
  destruct (next (SignifyClient (Fallible.world b))) as [a2|e2] eqn:E2; [|discriminate H].
  destruct (next (client_connect (Fallible.world b))) as [a3|e3] eqn:E3; [|discriminate H].
  destruct (next (client_state (Fallible.world b))) as [a4|e4] eqn:E4; [|discriminate H].
  destruct (next (setControllerId (Fallible.world b))) as [a5|e5] eqn:E5; [|discriminate H].
  exists a4. eexists. split; [reflexivity|]. split.
  - run_io. reflexivity.
  - cbn. repeat split; reflexivity.
Qed.

Lemma connect_io_total url pass b :
  exists b' r,
    Fallible.connect url pass b = (b', Resolved r) /\
    Fallible.getPasscode_calls b' = Fallible.getPasscode_calls b /\
    Fallible.getAgentUrl_calls b' = Fallible.getAgentUrl_calls b /\
    Fallible.alarms_clear_calls b' = Fallible.alarms_clear_calls b /\
    (Fallible.alarms_create_calls b' = Fallible.alarms_create_calls b \/
     Fallible.alarms_create_calls b' = rest (Fallible.alarms_create_calls b)).
Proof.
  destruct (first_failure (Fallible.world b)) as [e|] eqn:F.
  - rewrite (connect_io_early url pass b e F). do 2 eexists.
    split; [reflexivity|]. cbn. auto.
  - destruct (next (Fallible.alarms_create_calls b)) as [a|e] eqn:A.
    + rewrite (connect_io_success url pass b a F A). do 2 eexists.
      split; [reflexivity|]. cbn. auto.
    + destruct (connect_io_alarm_throws url pass b e F A) as (st & w' & _ & H & _).
      rewrite H. do 2 eexists. split; [reflexivity|]. cbn. auto.
Qed.

(** X2: a failed [connect] always clears the handle and never leaves a new
    alarm.  When one of the five steps before the alarm fails, no alarm
    call is made and the stored credentials are unchanged.  Otherwise the
    failure is [alarms.create] throwing: that call is on record, and the
    controller identifier of the state read back is already written.  In
    either case [setControllerId] is called only with the identifier of a
    state read-back that resolved. *)
Theorem failed_connect_outcome url pass b e :
  snd (Fallible.connect url pass b) = Resolved (Some e) ->
  _client (Fallible.world (fst (Fallible.connect url pass b))) = None /\
  alarms (Fallible.world (fst (Fallible.connect url pass b)))
    = alarms (Fallible.world b) /\
  match first_failure (Fallible.world b) with
  | Some e0 =>
      e = e0 /\
      filter is_alarm_call
        (since (Fallible.world b) (Fallible.world (fst (Fallible.connect url pass b))))
        = [] /\
      credentials (Fallible.world (fst (Fallible.connect url pass b)))
        = credentials (Fallible.world b)
  | None =>
      next (Fallible.alarms_create_calls b) = Rejected e /\
      filter is_alarm_call
        (since (Fallible.world b) (Fallible.world (fst (Fallible.connect url pass b))))
        = [CallAlarmsCreate "passcode-timeout" 5] /\
      exists st,
        next (client_state (Fallible.world b)) = Resolved st /\
        controllerId (Fallible.world (fst (Fallible.connect url pass b)))
          = controller_i st
  end /\
  forall x,
    In (CallSetControllerId x)
       (since (Fallible.world b) (Fallible.world (fst (Fallible.connect url pass b)))) ->
    exists st,
      next (client_state (Fallible.world b)) = Resolved st /\ x = controller_i st.
Proof.
  intros R. destruct (first_failure (Fallible.world b)) as [e0|] eqn:F.
  - rewrite (connect_io_early url pass b e0 F) in *. cbn [fst snd] in *. cbn [Fallible.world Fallible.with_world].
    inversion R; subst e0.
    destruct (connect_fails url pass _ e F) as (w' & l & H & C & K & A & _).
    destruct (connect_fails_calls url pass _ e F) as (l' & L & _ & N & P).
    rewrite H in *. cbn [fst] in *.
    split; [exact C|]. split; [exact A|]. split.
    + split; [reflexivity|]. split; [|exact K].
      rewrite (since_app _ _ _ L), filter_rev, N. reflexivity.
    + intros x I. rewrite (since_app _ _ _ L) in I. apply in_rev in I.
      destruct (P x I) as (st & S & X & _). exists st. auto.
  - destruct (next (Fallible.alarms_create_calls b)) as [a|e'] eqn:A.
    + rewrite (connect_io_success url pass b a F A) in R. discriminate R.
    + destruct (connect_io_alarm_throws url pass b e' F A)
        as (st & w' & S & H & C & Al & I & _ & _ & K).
      rewrite H in *. cbn [fst snd Fallible.world] in *. inversion R; subst e'.
      split; [exact C|]. split; [exact Al|].
      rewrite (since_app _ _ _ K). cbn.
      split.
      * split; [reflexivity|]. split; [reflexivity|]. exists st. auto.
      * intros x J.
        repeat (destruct J as [J|J]; try discriminate J; try contradiction).
        inversion J; subst. exists st. auto.
Qed.

Lemma failed_connect_outcome_witness :
  _client (Fallible.world
             (fst (Fallible.connect "http://example.com/agent" "test-passcode"
                     (alarm_create_throws (quiet connected_world))))) = None /\
  controllerId (Fallible.world
                  (fst (Fallible.connect "http://example.com/agent" "test-passcode"
                          (alarm_create_throws (quiet connected_world)))))
    = Some "test-controller-id".
Proof.
  destruct (failed_connect_outcome "http://example.com/agent" "test-passcode"
              (alarm_create_throws (quiet connected_world)) (Error "Alarm error"))
    as (C & _ & M & _).
  - vm_compute. reflexivity.
  - split; [exact C|].
    change (first_failure (Fallible.world (alarm_create_throws (quiet connected_world))))
      with (@None Err) in M.
    destruct M as (_ & _ & st & S & I).
    rewrite I. vm_compute in S. inversion S. reflexivity.
Defined.

(** *** [Fallible.isConnected] *)

Lemma check_live_io b :
  try_catch
    (state <- Fallible.lift call_client_state_opt ;;
     c <- Fallible.lift get_client ;;
     ret (live c && truthy (controller_i state)))
    (fun _ => ret false) b
  = Fallible.lift check_live b.
Proof.
  unfold check_live, Fallible.lift, try_catch, bind, ret, get_client,
    call_client_state_opt, Fallible.with_world; cbn.
  destruct (_client (Fallible.world b)) as [h|] eqn:C; cbn.
  - destruct (call_client_state (Fallible.world b)) as [w1 [st|e]]; reflexivity.
  - reflexivity.
Qed.

(** [Fallible.isConnected] is its first half followed by the state query;
    a rejection of the first half is a rejection of the whole. *)
Lemma isConnected_io_phases b :
  Fallible.isConnected b =
    match lazy_reconnect_io b with
    | (b1, Resolved _) => Fallible.lift check_live b1
    | (b1, Rejected e) => (b1, Rejected e)
    end.
Proof.
  unfold Fallible.isConnected, lazy_reconnect_io, bind.
  destruct (Fallible.getPasscode b) as [b1 [p|e]]; [|reflexivity].
  destruct (Fallible.getAgentUrl b1) as [b2 [u|e]]; [|reflexivity].
  destruct (Fallible.lift get_client b2) as [b3 [c|e]]; [|reflexivity].
  destruct (truthy u && truthy p && negb (live c)).
  - destruct (Fallible.connect _ _ b3) as [b4 [r|e]]; [|reflexivity].
    destruct (Fallible.alarms_clear "passcode-timeout" b4) as [b5 [x|e]]; [|reflexivity].
    destruct (Fallible.alarms_create "passcode-timeout" 5 b5) as [b6 [y|e]]; [|reflexivity].
    apply check_live_io.
  - unfold ret at 1. apply check_live_io.
Qed.

Lemma outside_resolve_parts b :
  outside_resolve b = true ->
  resolves (Fallible.getPasscode_calls b) = true /\
  resolves (Fallible.getAgentUrl_calls b) = true /\
  resolves (Fallible.alarms_clear_calls b) = true /\
  resolves (Fallible.alarms_create_calls b) = true.
Proof.
  unfold outside_resolve. intros H.
  apply andb_prop in H as [H R4]. apply andb_prop in H as [H R3].
  apply andb_prop in H as [R1 R2]. auto.
Qed.

Lemma outside_resolve_intro b :
  resolves (Fallible.getPasscode_calls b) = true ->
  resolves (Fallible.getAgentUrl_calls b) = true ->
  resolves (Fallible.alarms_clear_calls b) = true ->
  resolves (Fallible.alarms_create_calls b) = true ->
  outside_resolve b = true.
Proof. unfold outside_resolve. intros -> -> -> ->. reflexivity. Qed.

Lemma is_resolved_inv {A} (o : Outcome A) :
  is_resolved o = true -> exists a, o = Resolved a.
Proof. destruct o; [eauto | discriminate]. Qed.

(** With the four calls resolving, the first half of [Fallible.isConnected]
    returns, and it leaves the world that the first half of [isConnected]
    leaves. *)
Lemma lazy_reconnect_io_quiet b :
  outside_resolve b = true ->
  exists b1,
    lazy_reconnect_io b = (b1, Resolved tt) /\
    Fallible.world b1 = at_query (Fallible.world b).
Proof.
  intros O. destruct (outside_resolve_parts b O) as (R1 & R2 & R3 & R4).
  destruct (resolves_next _ R1) as [N1 Q1]. apply is_resolved_inv in N1 as [a1 N1].
  destruct (resolves_next _ R2) as [N2 Q2]. apply is_resolved_inv in N2 as [a2 N2].
  destruct (resolves_next _ R3) as [N3 Q3]. apply is_resolved_inv in N3 as [a3 N3].
  destruct (resolves_next _ R4) as [N4 Q4]. apply is_resolved_inv in N4 as [a4 N4].
  destruct (resolves_next _ Q4) as [N5 Q5]. apply is_resolved_inv in N5 as [a5 N5].
  unfold at_query, lazy_reconnect, lazy_reconnect_io, bind,
    Fallible.getPasscode, Fallible.getAgentUrl, Fallible.lift, get_client,
    getPasscode, getAgentUrl, Fallible.with_world; cbn.
  rewrite (call_eq (Fallible.getPasscode_calls b)), N1; cbn.
  rewrite (call_eq (Fallible.getAgentUrl_calls b)), N2; cbn.
  destruct (truthy (agentUrl (Fallible.world b)) && truthy (passcode (Fallible.world b))
            && negb (live (_client (Fallible.world b)))); cbn.
  2:{ eexists. split; reflexivity. }
  match goal with
  | |- context [Fallible.connect ?u ?p ?b0] =>
      set (u0 := u); set (p0 := p); set (b00 := b0)
  end.
  change (connect u0 p0 (record CallGetAgentUrl (record CallGetPasscode (Fallible.world b))))
    with (connect u0 p0 (Fallible.world b00)).
  destruct (connect_total u0 p0 (Fallible.world b00)) as [w1 T].
  destruct (first_failure (Fallible.world b00)) as [e|] eqn:F.
  - rewrite (connect_io_early u0 p0 b00 e F), T. cbn.
    unfold Fallible.alarms_clear, Fallible.alarms_create; cbn.
    rewrite (call_eq (Fallible.alarms_clear_calls b)), N3; cbn.
    rewrite (call_eq (Fallible.alarms_create_calls b)), N4; cbn.
    eexists. split; reflexivity.
  - rewrite (connect_io_success u0 p0 b00 a4 F N4), T. cbn.
    unfold Fallible.alarms_clear, Fallible.alarms_create; cbn.
    rewrite (call_eq (Fallible.alarms_clear_calls b)), N3; cbn.
    rewrite (call_eq (rest (Fallible.alarms_create_calls b))), N5; cbn.
    eexists. split; reflexivity.
Qed.

Lemma lift_io {A} (m : M A) b :
  Fallible.world (fst (Fallible.lift m b)) = fst (m (Fallible.world b)) /\
  snd (Fallible.lift m b) = snd (m (Fallible.world b)).
Proof.
  unfold Fallible.lift. destruct (m (Fallible.world b)); split; reflexivity.
Qed.

(** With [alarms.create] returning, [Fallible.connect] does to the world
    what [connect] does and returns the same. *)
Lemma connect_io_quiet url pass b :
  resolves (Fallible.alarms_create_calls b) = true ->
  Fallible.world (fst (Fallible.connect url pass b))
    = fst (connect url pass (Fallible.world b)) /\
  snd (Fallible.connect url pass b) = snd (connect url pass (Fallible.world b)).
Proof.
  intros R. destruct (resolves_next _ R) as [N _].
  apply is_resolved_inv in N as [a N].
  destruct (connect_total url pass (Fallible.world b)) as [w1 T].
  destruct (first_failure (Fallible.world b)) as [e|] eqn:F.
  - rewrite (connect_io_early url pass b e F), T. split; reflexivity.
  - rewrite (connect_io_success url pass b a F N), T. split; reflexivity.
Qed.

(** With the four outside calls returning, [Fallible.isConnected] does to
    the world what [isConnected] does and returns the same. *)
Lemma isConnected_io_quiet b :
  outside_resolve b = true ->
  Fallible.world (fst (Fallible.isConnected b)) = fst (isConnected (Fallible.world b)) /\
  snd (Fallible.isConnected b) = snd (isConnected (Fallible.world b)).
Proof.
  intros O. destruct (lazy_reconnect_io_quiet b O) as (b1 & L & W).
  rewrite isConnected_io_phases, L, isConnected_check, <- W.
  apply lift_io.
Qed.



(** The result is [true] on the connected session of the test and [false]
    once the state carries no identifier. *)
Example isConnected_result_values :
  snd (Fallible.isConnected (quiet connected_world)) = Resolved true /\
  snd (Fallible.isConnected (quiet (anonymous_agent connected_world))) = Resolved false /\
  snd (Fallible.isConnected (quiet test_world)) = Resolved false.
Proof. vm_compute. auto. Qed.




(** With a handshake that is rejected, [connect] fails inside the
    reconnect and [isConnected] still returns. *)
Example isConnected_catches_connect_failure :
  snd (Fallible.isConnected (quiet (handshake_fails stored_world))) = Resolved false.
Proof. vm_compute. reflexivity. Qed.

End FallibleProofs.
